(** * twterminator: retention filter, paginator, deletion consumer, coordinator

    A shallow embedding of [twterminator.go] and the properties of its
    pipeline.  The program is embedded in its version with a window for
    likes (flag [-l]); of the earlier version with a single window the
    retention filter is embedded as well, in [single_window].

    Conventions:
    - [int64] and [int] values are integers in [Z]; the only arithmetic
      the program performs on them that can leave the 64-bit range is
      written with [wrap64].
    - A [time.Time] is the instant it denotes, counted in nanoseconds
      from the zero value of the type (January 1, year 1, 00:00:00 UTC).
    - [url.Values] is a finite map from keys to lists of values.
    - Console output, channel operations, calls of the remote API and
      operations on the wait group are recorded as a trace of events.

    The properties are given in two parts: those of the pipeline
    (C1 to C10), then further properties of the same functions and of
    the loading of the configuration (X1 onwards). *)

From stdpp Require Import base numbers list strings gmap pretty relations sorting.

Open Scope Z_scope.

(** ** Machine integers *)

Definition wrap64 (z : Z) : Z := (z + 2 ^ 63) `mod` 2 ^ 64 - 2 ^ 63.

Definition int64_range (z : Z) : Prop := - 2 ^ 63 ≤ z < 2 ^ 63.

(** ** Time *)

Module time.

(** An instant, in nanoseconds since the zero [Time]. *)
Definition Time := Z.

(** [time.Time{}] *)
Definition zero : Time := 0.

(** [t.Before(u)] *)
Definition Before (t u : Time) : bool := t <? u.

(** [time.Duration] is an [int64] count of nanoseconds. *)
Definition Duration := Z.
Definition Nanosecond : Duration := 1.
Definition Second : Duration := 1000000000 * Nanosecond.
Definition Minute : Duration := 60 * Second.
Definition Hour : Duration := 60 * Minute.

(** [t.Add(d)] *)
Definition Add (t : Time) (d : Duration) : Time := t + d.

End time.

(** The layout string both functions hand to [time.Parse]. *)
Definition createdAtLayout : string := "Mon Jan 02 15:04:05 +0000 2006".

(** ** Records of the API client and of the program *)

Module anaconda.

(** The fields of [anaconda.Tweet] the program reads. *)
Record Tweet := mkTweet {
  Id : Z;
  CreatedAt : string;
  Text : string
}.

End anaconda.

Record AuthInfo := mkAuthInfo {
  ConsumerKey : string;
  ConsumerSecret : string;
  AccessToken : string;
  AccessSecret : string;
  Username : string
}.

Record FilterInfo := mkFilterInfo {
  BacklogDays : Z;
  BacklogDaysLikes : Z
}.

Record Configuration := mkConfiguration {
  Auth : AuthInfo;
  Filter : FilterInfo
}.

Record TweetFilter := mkTweetFilter {
  MaxDate : time.Time;
  MaxDateLikes : time.Time
}.

(** The command-line flags [-d], [-x], [-b], [-l]. *)
Record Flags := mkFlags {
  debug : bool;
  xoxo : bool;
  backlog : Z;
  likemax : Z
}.

Definition maxErrorCount : Z := 3.

(** Tweet types *)
Definition Tweet : string := "Tweet".
Definition Like : string := "Like".

(** ** Traces *)

(** [url.Values] *)
Abbreviation Values := (gmap string (list string)).

(** [params.Set(key, value)] *)
Definition Values_Set (key value : string) (params : Values) : Values :=
  <[key := [value]]> params.

(** What a [TweetLoader] hands back: an error, or a page of tweets. *)
Inductive Response :=
| Fail (err : string)
| Page (tweets : list anaconda.Tweet).

(** The observable steps of the workers, in program order. *)
Inductive Event :=
| Call (params : Values)            (* loader(params) *)
| Printf (text : string)            (* fmt.Printf(...) *)
| Range (tweet : anaconda.Tweet)    (* one turn of the range loop over a page *)
| Send (tweet : anaconda.Tweet)     (* stream <- tweet *)
| Close                             (* close(stream) *)
| LatchAdd (delta : Z)              (* latch.Add(delta) *)
| LatchDone                         (* latch.Done() *)
| DeleteTweet (id : Z)              (* twitter.DeleteTweet(id, false) *)
| Unfavorite (id : Z).              (* twitter.Unfavorite(id) *)

Definition newline : string := String (Ascii.ascii_of_nat 10) "".

(** [%d] *)
Definition fmt_d (z : Z) : string := pretty z.

Definition calls (tr : list Event) : list Values :=
  omap (λ e, match e with Call p => Some p | _ => None end) tr.

Definition sends (tr : list Event) : list anaconda.Tweet :=
  omap (λ e, match e with Send t => Some t | _ => None end) tr.

Definition ranged (tr : list Event) : list anaconda.Tweet :=
  omap (λ e, match e with Range t => Some t | _ => None end) tr.

Definition printed (tr : list Event) : list string :=
  omap (λ e, match e with Printf s => Some s | _ => None end) tr.

Definition closes (tr : list Event) : nat :=
  length (List.filter (λ e, match e with Close => true | _ => false end) tr).

Definition destructive (tr : list Event) : list Event :=
  List.filter
    (λ e, match e with DeleteTweet _ | Unfavorite _ => true | _ => false end) tr.

(** ** The retention filter *)

Section Filter.

(** [time.Parse layout value]: [Some t] when the value parses, [None]
    when [time.Parse] reports an error. *)
Variable time_Parse : string → string → option time.Time.

(** [dt, _ := time.Parse(layout, value)]: the error is dropped, and
    with an error [time.Parse] hands back the zero [Time]. *)
Definition parse_ignoring_error (layout value : string) : time.Time :=
  default time.zero (time_Parse layout value).

Definition allowTweet (tweet : anaconda.Tweet) (maxDate : time.Time) : bool :=
  let dt := parse_ignoring_error createdAtLayout (anaconda.CreatedAt tweet) in
  if time.Before dt maxDate then true else false.

End Filter.

(** The filter of the version with a single window: it takes the whole
    [TweetFilter] and reads its only field. *)
Module single_window.

Record TweetFilter := mkTweetFilter {
  MaxDate : time.Time
}.

Definition allowTweet (time_Parse : string → string → option time.Time)
    (tweet : anaconda.Tweet) (filter : TweetFilter) : bool :=
  let dt := parse_ignoring_error time_Parse createdAtLayout
              (anaconda.CreatedAt tweet) in
  if time.Before dt (MaxDate filter) then true else false.

End single_window.

(** ** The paginator *)

(** The variables of [loadTweets] that live across turns of its loop. *)
Record LoadState := mkLoadState {
  errorCount : Z;
  minID : Z;
  params : Values
}.

Section Paginator.

Variable time_Parse : string → string → option time.Time.
Variable cfg : Configuration.
Variable flags : Flags.

(** The body of [for _, tweet := range tweets]. *)
Definition rangeBody (maxDate : time.Time) (minID : Z) (tweet : anaconda.Tweet)
  : Z * list Event :=
  let minID' :=
    if bool_decide (minID = 0) || bool_decide (anaconda.Id tweet < minID)
    then anaconda.Id tweet else minID in
  (minID',
   Range tweet ::
   if allowTweet time_Parse tweet maxDate then [Send tweet] else []).

Fixpoint rangeTweets (maxDate : time.Time) (tweets : list anaconda.Tweet)
    (minID : Z) : Z * list Event :=
  match tweets with
  | [] => (minID, [])
  | tweet :: tweets' =>
      let '(minID1, ev1) := rangeBody maxDate minID tweet in
      let '(minID2, ev2) := rangeTweets maxDate tweets' minID1 in
      (minID2, ev1 ++ ev2)
  end.

(** One turn of the [for] loop once the loader has answered: the events
    of the turn and the state for the next turn, [None] after [break]. *)
Definition turn (maxDate : time.Time) (tweetType : string) (st : LoadState)
    (r : Response) : list Event * option LoadState :=
  match r with
  | Fail err =>
      let errorCount' := errorCount st + 1 in
      ([Printf ("Error retrieving " +:+ tweetType +:+ "s: " +:+ err +:+ newline)],
       if bool_decide (maxErrorCount ≤ errorCount') then None
       else Some (mkLoadState errorCount' (minID st) (params st)))
  | Page tweets =>
      let dbg :=
        if debug flags
        then [Printf ("Retrieved " +:+ tweetType +:+ "s: "
                      +:+ fmt_d (Z.of_nat (length tweets)) +:+ " "
                      +:+ fmt_d (minID st) +:+ newline)]
        else [] in
      if bool_decide (length tweets = 0%nat) then (dbg, None)
      else
        let '(minID1, ev) := rangeTweets maxDate tweets (minID st) in
        let minID2 := wrap64 (minID1 - 1) in
        (dbg ++ ev,
         Some (mkLoadState 0 minID2
                 (Values_Set "max_id" (fmt_d minID2) (params st))))
  end.

(** What follows the loop. *)
Definition loadExit (tweetType : string) : list Event :=
  Close ::
  (if debug flags
   then [Printf ("Exiting load " +:+ tweetType +:+ "s" +:+ newline)] else [])
  ++ [LatchDone].

(** The loop against the answers the loader gives, in order.  When the
    answers run out the trace stops at the call that awaits the next. *)
Fixpoint loadLoop (maxDate : time.Time) (tweetType : string)
    (answers : list Response) (st : LoadState) : list Event :=
  Call (params st) ::
  match answers with
  | [] => []
  | r :: answers' =>
      let '(ev, next) := turn maxDate tweetType st r in
      ev ++
      match next with
      | None => loadExit tweetType
      | Some st' => loadLoop maxDate tweetType answers' st'
      end
  end.

Definition loadInit : LoadState :=
  mkLoadState 0 0
    (Values_Set "include_rts" "1"
       (Values_Set "count" "200"
          (Values_Set "screen_name" (Username (Auth cfg)) ∅))).

(** [loadTweets], with the loader given by its successive answers and
    the stream by the [Send] and [Close] events. *)
Definition loadTweets (loader : list Response) (maxDate : time.Time)
    (tweetType : string) : list Event :=
  loadLoop maxDate tweetType loader loadInit.

(** The loop state after the given answers, [None] once the loop has
    been left. *)
Fixpoint loadState (maxDate : time.Time) (tweetType : string)
    (answers : list Response) (st : LoadState) : option LoadState :=
  match answers with
  | [] => Some st
  | r :: answers' =>
      match (turn maxDate tweetType st r).2 with
      | None => None
      | Some st' => loadState maxDate tweetType answers' st'
      end
  end.

(** The events of the turns that consume the given answers, without the
    call that follows the last of them. *)
Fixpoint loadTurns (maxDate : time.Time) (tweetType : string)
    (answers : list Response) (st : LoadState) : list Event :=
  match answers with
  | [] => []
  | r :: answers' =>
      Call (params st) :: (turn maxDate tweetType st r).1 ++
      match (turn maxDate tweetType st r).2 with
      | None => []
      | Some st' => loadTurns maxDate tweetType answers' st'
      end
  end.

End Paginator.

(** ** The deletion consumer *)

Section Consumer.

Variable time_Parse : string → string → option time.Time.

(** [dt.Local().Format("02.01.06 15:04:05")] *)
Variable format_local : time.Time → string.

Variable flags : Flags.

(** The error of [twitter.DeleteTweet(id, false)] and of
    [twitter.Unfavorite(id)], [None] when the call succeeds. *)
Variable twitter_DeleteTweet : Z → option string.
Variable twitter_Unfavorite : Z → option string.

(** The line printed for every tweet taken from the stream. *)
Definition tweetLine (tweetType : string) (tweet : anaconda.Tweet) : string :=
  let dt := parse_ignoring_error time_Parse createdAtLayout
              (anaconda.CreatedAt tweet) in
  tweetType +:+ ": " +:+ fmt_d (anaconda.Id tweet) +:+ " "
  +:+ format_local dt +:+ " - " +:+ anaconda.Text tweet +:+ newline.

(** The body of [for tweet := range stream]. *)
Definition removeBody (tweetType : string) (tweet : anaconda.Tweet)
  : list Event :=
  Printf (tweetLine tweetType tweet) ::
  if bool_decide (tweetType = Tweet) then
    if xoxo flags then
      DeleteTweet (anaconda.Id tweet) ::
      match twitter_DeleteTweet (anaconda.Id tweet) with
      | Some err => [Printf ("Error deleting tweet: " +:+ err +:+ newline)]
      | None => []
      end
    else []
  else if bool_decide (tweetType = Like) then
    if xoxo flags then
      Unfavorite (anaconda.Id tweet) ::
      match twitter_Unfavorite (anaconda.Id tweet) with
      | Some err => [Printf ("Error unliking tweet: " +:+ err +:+ newline)]
      | None => []
      end
    else []
  else [Printf ("Unknown tweet type: " +:+ tweetType +:+ newline)].

(** [removeTweets], with the stream given by the tweets received from it
    until it is closed. *)
Definition removeTweets (stream : list anaconda.Tweet) (tweetType : string)
  : list Event :=
  LatchAdd 1 ::
  concat (removeBody tweetType <$> stream) ++
  (if debug flags
   then [Printf ("Exiting log " +:+ tweetType +:+ "s" +:+ newline)] else [])
  ++ [LatchDone].

End Consumer.

(** ** The coordinator: retention windows *)

Definition maxDays (flags : Flags) (cfg : Configuration) : Z :=
  let maxDays := BacklogDays (Filter cfg) in
  if bool_decide (backlog flags > 0) then backlog flags else maxDays.

Definition maxDaysLikes (flags : Flags) (cfg : Configuration) : Z :=
  let maxDaysLikes := BacklogDaysLikes (Filter cfg) in
  let maxDaysLikes :=
    if bool_decide (likemax flags > 0) then likemax flags else maxDaysLikes in
  if bool_decide (maxDaysLikes = 0) then maxDays flags cfg else maxDaysLikes.

(** [time.Duration(days) * -24 * time.Hour], in [int64] arithmetic. *)
Definition backlogDuration (days : Z) : time.Duration :=
  wrap64 (wrap64 (days * -24) * time.Hour).

(** The [filter] of [main]; [now] and [nowLikes] are the two readings of
    [time.Now()]. *)
Definition mainFilter (flags : Flags) (cfg : Configuration)
    (now nowLikes : time.Time) : TweetFilter :=
  mkTweetFilter
    (time.Add now (backlogDuration (maxDays flags cfg)))
    (time.Add nowLikes (backlogDuration (maxDaysLikes flags cfg))).

(** ** The coordinator: goroutines and the wait group *)

Module sched.

(** Where [main] stands. *)
Inductive MainPc :=
| AtLatchAdd      (* before latch.Add(2) *)
| AtGoLoadTweets  (* before go loadTweets(.., chTw, Tweet) *)
| AtGoLoadLikes   (* before go loadTweets(.., chLk, Like) *)
| AtGoRemoveTweets
| AtGoRemoveLikes
| AtWait          (* before latch.Wait() returns *)
| Returned.

(** Where a [loadTweets] goroutine stands.  Between two sends it only
    calls the loader and prints, so it is described by the tweets it has
    still to send before it leaves the loop. *)
Inductive LoaderPc :=
| LoadIdle                                    (* not started *)
| Loading (pending : list anaconda.Tweet)     (* in the loop *)
| LoadClosed                                  (* after close(stream) *)
| LoadExited.                                 (* after latch.Done() *)

(** Where a [removeTweets] goroutine stands. *)
Inductive RemoverPc :=
| RemIdle                          (* not started *)
| RemEntered                       (* started, before latch.Add(1) *)
| RemRange                         (* receiving from the stream *)
| RemBody (tweet : anaconda.Tweet) (* in the loop body *)
| RemLeft                          (* after the loop, before latch.Done() *)
| RemExited.                       (* after latch.Done() *)

(** One category: its two goroutines and, as history, the tweets handed
    over the channel so far. *)
Record Pipeline := mkPipeline {
  loader : LoaderPc;
  remover : RemoverPc;
  delivered : list anaconda.Tweet
}.

Record World := mkWorld {
  latch : Z;
  mainPc : MainPc;
  tweets : Pipeline;
  likes : Pipeline
}.

Definition stream_closed (l : LoaderPc) : bool :=
  match l with LoadClosed | LoadExited => true | _ => false end.

(** A step of one of the two goroutines of a category, with what it adds
    to the counter of the wait group.  The channel is unbuffered: a send
    and the matching receive are one step. *)
Inductive pipe_step : Pipeline → Z → Pipeline → Prop :=
| step_send t ts d :
    pipe_step (mkPipeline (Loading (t :: ts)) RemRange d) 0
              (mkPipeline (Loading ts) (RemBody t) (d ++ [t]))
| step_close r d :
    pipe_step (mkPipeline (Loading []) r d) 0 (mkPipeline LoadClosed r d)
| step_load_done r d :
    pipe_step (mkPipeline LoadClosed r d) (-1) (mkPipeline LoadExited r d)
| step_remove_add l d :
    pipe_step (mkPipeline l RemEntered d) 1 (mkPipeline l RemRange d)
| step_body l t d :
    pipe_step (mkPipeline l (RemBody t) d) 0 (mkPipeline l RemRange d)
| step_range_end l d :
    stream_closed l = true →
    pipe_step (mkPipeline l RemRange d) 0 (mkPipeline l RemLeft d)
| step_remove_done l d :
    pipe_step (mkPipeline l RemLeft d) (-1) (mkPipeline l RemExited d).

(** The counter of the wait group, accounted for: [main] adds two for
    the paginators, each paginator takes one off when it is done, and a
    consumer holds one from its [latch.Add(1)] to its [latch.Done()]. *)
Definition main_share (pc : MainPc) : Z :=
  match pc with AtLatchAdd => 0 | _ => 2 end.

Definition loader_done (l : LoaderPc) : Z :=
  match l with LoadExited => 1 | _ => 0 end.

Definition remover_held (r : RemoverPc) : Z :=
  match r with RemRange | RemBody _ | RemLeft => 1 | _ => 0 end.

Definition balance (w : World) : Z :=
  main_share (mainPc w)
  - loader_done (loader (tweets w)) - loader_done (loader (likes w))
  + remover_held (remover (tweets w)) + remover_held (remover (likes w)).

(** What has gone over the channel of a category whose paginator sends
    [out]: with the tweets still to be sent it makes up [out], and a
    consumer leaves its loop only when the stream is closed. *)
Definition pipe_inv (out : list anaconda.Tweet) (p : Pipeline) : Prop :=
  match loader p with
  | LoadIdle => False
  | Loading pending =>
      delivered p ++ pending = out ∧
      remover p ≠ RemLeft ∧ remover p ≠ RemExited
  | LoadClosed | LoadExited => delivered p = out
  end.

Section Steps.

(** What the two paginators send on their streams. *)
Variable tweetsOut likesOut : list anaconda.Tweet.

Definition idle : Pipeline := mkPipeline LoadIdle RemIdle [].

Definition init : World := mkWorld 0 AtLatchAdd idle idle.

Definition start_loader (out : list anaconda.Tweet) (p : Pipeline) : Pipeline :=
  mkPipeline (Loading out) (remover p) (delivered p).

Definition start_remover (p : Pipeline) : Pipeline :=
  mkPipeline (loader p) RemEntered (delivered p).

(** The interleavings: [main] or a goroutine takes a step.  Nothing runs
    after [main] has returned. *)
Inductive step : World → World → Prop :=
| main_add n tw lk :
    step (mkWorld n AtLatchAdd tw lk) (mkWorld (n + 2) AtGoLoadTweets tw lk)
| main_go_load_tweets n tw lk :
    step (mkWorld n AtGoLoadTweets tw lk)
         (mkWorld n AtGoLoadLikes (start_loader tweetsOut tw) lk)
| main_go_load_likes n tw lk :
    step (mkWorld n AtGoLoadLikes tw lk)
         (mkWorld n AtGoRemoveTweets tw (start_loader likesOut lk))
| main_go_remove_tweets n tw lk :
    step (mkWorld n AtGoRemoveTweets tw lk)
         (mkWorld n AtGoRemoveLikes (start_remover tw) lk)
| main_go_remove_likes n tw lk :
    step (mkWorld n AtGoRemoveLikes tw lk)
         (mkWorld n AtWait tw (start_remover lk))
| main_wait tw lk :
    step (mkWorld 0 AtWait tw lk) (mkWorld 0 Returned tw lk)
| tweets_step n pc tw tw' lk delta :
    pc ≠ Returned → pipe_step tw delta tw' →
    step (mkWorld n pc tw lk) (mkWorld (n + delta) pc tw' lk)
| likes_step n pc tw lk lk' delta :
    pc ≠ Returned → pipe_step lk delta lk' →
    step (mkWorld n pc tw lk) (mkWorld (n + delta) pc tw lk').

Definition reachable (w : World) : Prop := rtc step init w.

(** [main] has not yet started the paginator for tweets, for likes. *)
Definition before_tweets (pc : MainPc) : bool :=
  match pc with AtLatchAdd | AtGoLoadTweets => true | _ => false end.

Definition before_likes (pc : MainPc) : bool :=
  match pc with
  | AtLatchAdd | AtGoLoadTweets | AtGoLoadLikes => true
  | _ => false
  end.

(** [main] has not yet started the consumer for tweets, for likes. *)
Definition before_remove_tweets (pc : MainPc) : bool :=
  match pc with
  | AtLatchAdd | AtGoLoadTweets | AtGoLoadLikes | AtGoRemoveTweets => true
  | _ => false
  end.

Definition before_remove_likes (pc : MainPc) : bool :=
  match pc with
  | AtWait | Returned => false
  | _ => true
  end.

Definition world_inv (w : World) : Prop :=
  latch w = balance w ∧
  (mainPc w = Returned → latch w = 0) ∧
  (if before_tweets (mainPc w) then tweets w = idle
   else pipe_inv tweetsOut (tweets w)) ∧
  (if before_likes (mainPc w) then likes w = idle
   else pipe_inv likesOut (likes w)) ∧
  (before_remove_tweets (mainPc w) = true → remover (tweets w) = RemIdle) ∧
  (before_remove_likes (mainPc w) = true → remover (likes w) = RemIdle).

End Steps.

End sched.

(** ** A parser for the timestamps of the API

    An instance for the [time_Parse] parameter, used to run the functions
    above on concrete tweets.  It reads the fixed-width form in which the
    API writes [created_at], for example
    [Wed Aug 27 13:08:45 +0000 2008], and rejects everything else. *)

Module stamp.

Definition shortDayNames : list string :=
  ["Sun"; "Mon"; "Tue"; "Wed"; "Thu"; "Fri"; "Sat"].

Definition shortMonthNames : list string :=
  ["Jan"; "Feb"; "Mar"; "Apr"; "May"; "Jun";
   "Jul"; "Aug"; "Sep"; "Oct"; "Nov"; "Dec"].

Fixpoint lookup_name (names : list string) (val : string) (i : Z) : option Z :=
  match names with
  | [] => None
  | n :: names' =>
      if bool_decide (n = val) then Some i else lookup_name names' val (i + 1)
  end.

Definition digit (c : Ascii.ascii) : option Z :=
  let n := Z.of_N (Ascii.N_of_ascii c) in
  if bool_decide (48 ≤ n ≤ 57) then Some (n - 48) else None.

Fixpoint atoi_from (acc : Z) (s : string) : option Z :=
  match s with
  | EmptyString => Some acc
  | String c s' => d ← digit c; atoi_from (10 * acc + d) s'
  end.

Definition atoi (s : string) : option Z :=
  if bool_decide (s = "") then None else atoi_from 0 s.

Definition isLeap (year : Z) : bool :=
  bool_decide (year `mod` 4 = 0) &&
  (negb (bool_decide (year `mod` 100 = 0)) || bool_decide (year `mod` 400 = 0)).

(** Days of the year before the first of the month (1 = January). *)
Definition daysBefore (month : Z) (leap : bool) : Z :=
  default 0 ([0; 31; 59; 90; 120; 151; 181; 212; 243; 273; 304; 334]
               !! Z.to_nat (month - 1))
  + (if leap && bool_decide (2 < month) then 1 else 0).

Definition daysIn (month year : Z) : Z :=
  if bool_decide (month = 2) then (if isLeap year then 29 else 28)
  else if bool_decide (month ∈ [4; 6; 9; 11]) then 30 else 31.

(** [time.Date(year, month, day, hour, min, sec, 0, time.UTC)] as an
    instant since January 1 of year 1. *)
Definition Date (year month day hour min sec : Z) : time.Time :=
  let y := year - 1 in
  let days := 365 * y + y `div` 4 - y `div` 100 + y `div` 400
              + daysBefore month (isLeap year) + (day - 1) in
  (((days * 24 + hour) * 60 + min) * 60 + sec) * time.Second.

Definition guard (b : bool) : option unit := if b then Some () else None.

Definition parse (layout value : string) : option time.Time :=
  _ ← guard (bool_decide (layout = createdAtLayout));
  _ ← guard (bool_decide (String.length value = 30%nat));
  _ ← lookup_name shortDayNames (String.substring 0 3 value) 0;
  _ ← guard (bool_decide (String.substring 3 1 value = " "));
  month ← lookup_name shortMonthNames (String.substring 4 3 value) 1;
  _ ← guard (bool_decide (String.substring 7 1 value = " "));
  day ← atoi (String.substring 8 2 value);
  _ ← guard (bool_decide (String.substring 10 1 value = " "));
  hour ← atoi (String.substring 11 2 value);
  _ ← guard (bool_decide (String.substring 13 1 value = ":"));
  min ← atoi (String.substring 14 2 value);
  _ ← guard (bool_decide (String.substring 16 1 value = ":"));
  sec ← atoi (String.substring 17 2 value);
  _ ← guard (bool_decide (String.substring 19 7 value = " +0000 "));
  year ← atoi (String.substring 26 4 value);
  _ ← guard (bool_decide (hour < 24) && bool_decide (min < 60)
             && bool_decide (sec < 60));
  _ ← guard (bool_decide (1 ≤ day ≤ daysIn month year));
  Some (Date year month day hour min sec).

End stamp.

(** ** Sample data *)

Definition sampleCfg : Configuration :=
  mkConfiguration (mkAuthInfo "ck" "cs" "at" "as" "kwo") (mkFilterInfo 7 0).

Definition quiet : Flags := mkFlags false false 0 0.

(** Taken as the present in the samples: Saturday, 31 October 2026, noon. *)
Definition sampleNow : time.Time :=
  stamp.Date 2026 10 31 12 0 0.

Definition tweet1d : anaconda.Tweet :=
  anaconda.mkTweet 903 "Fri Oct 30 12:00:00 +0000 2026" "one day old".
Definition tweet10d : anaconda.Tweet :=
  anaconda.mkTweet 902 "Wed Oct 21 12:00:00 +0000 2026" "ten days old".
Definition tweet8d : anaconda.Tweet :=
  anaconda.mkTweet 901 "Fri Oct 23 12:00:00 +0000 2026" "eight days old".
Definition tweetBad : anaconda.Tweet :=
  anaconda.mkTweet 900 "yesterday" "no timestamp".

(** ** Quantities the statements speak of *)

(** The smallest identifier of a list, [d] for the empty list. *)
Definition minimum (d : Z) (ids : list Z) : Z :=
  match ids with
  | [] => d
  | i :: ids' => foldr Z.min i ids'
  end.

Definition ids (tweets : list anaconda.Tweet) : list Z :=
  anaconda.Id <$> tweets.

(** The smallest identifier of each page. *)
Definition page_minima (pages : list (list anaconda.Tweet)) : list Z :=
  (λ p, minimum 0 (ids p)) <$> pages.

(** A page the paginator can take the minimum of: no identifier is zero,
    the mark of a cursor not yet set, or the least [int64]. *)
Definition plain_ids (p : list anaconda.Tweet) : Prop :=
  Forall (λ t, anaconda.Id t ≠ 0 ∧ - 2 ^ 63 < anaconda.Id t < 2 ^ 63) p.

(** For each page in turn, the smallest identifier among that page and
    all pages before it, less one. *)
Fixpoint cursors_after (seen : list Z) (pages : list (list anaconda.Tweet))
  : list Z :=
  match pages with
  | [] => []
  | p :: pages' =>
      let seen' := seen ++ ids p in
      (minimum 0 seen' - 1) :: cursors_after seen' pages'
  end.

(** The tweets of an answer, none for an error. *)
Definition tweets_of (r : Response) : list anaconda.Tweet :=
  match r with Page p => p | Fail _ => [] end.

(** The tweets of the pages among the answers. *)
Definition pages_of (answers : list Response) : list anaconda.Tweet :=
  concat (tweets_of <$> answers).

(** Strictly decreasing. *)
Definition decreasing (l : list Z) : Prop := StronglySorted Z.gt l.


(** ** Configuration file and start-up *)

Definition configFileName : string := ".twterminator.yaml".

(** [Configuration{}] *)
Definition zeroConfiguration : Configuration :=
  mkConfiguration (mkAuthInfo "" "" "" "" "") (mkFilterInfo 0 0).

(** [os.Getenv]: the value of the variable, empty when it is not set. *)
Definition os_Getenv (env : gmap string string) (key : string) : string :=
  default "" (env !! key).

Definition homeLocations : list string := ["HOME"; "HOMEPATH"; "USERPROFILE"].

(** The loop of [GetHomeDirectory] over the names still to try. *)
Fixpoint GetHomeDirectory_range (env : gmap string string) (names : list string)
  : string :=
  match names with
  | [] => ""
  | v :: names' =>
      let x := os_Getenv env v in
      if bool_decide (x ≠ "") then x else GetHomeDirectory_range env names'
  end.

Definition GetHomeDirectory (env : gmap string string) : string :=
  GetHomeDirectory_range env homeLocations.

(** The two loaders of the API client that [main] hands to [loadTweets]. *)
Inductive LoaderName := GetUserTimeline | GetFavorites.

(** The goroutines [main] starts. *)
Inductive Worker :=
| LoadTweets (loader : LoaderName) (maxDate : time.Time) (tweetType : string)
| RemoveTweets (tweetType : string).

(** What [main] and the loading of the configuration do, in program
    order. *)
Inductive SysEvent :=
| Open (name : string)                 (* os.Open(name) *)
| ReadFrom (name : string)             (* b.ReadFrom(r) *)
| CloseFile (name : string)            (* r.Close() *)
| Unmarshal (data : string)            (* yaml.Unmarshal(data, z) *)
| Out (text : string)                  (* fmt.Printf, fmt.Println *)
| SetConsumerKey (key : string)
| SetConsumerSecret (secret : string)
| NewTwitterApi (token secret : string)
| MakeChan
| WgAdd (delta : Z)                    (* latch.Add(delta) *)
| Go (w : Worker)                      (* go ... *)
| WgWait.                              (* latch.Wait() *)

(** [%t] *)
Definition fmt_t (b : bool) : string := if b then "true" else "false".

(** [%2d]: padded with a space on the left to two characters. *)
Definition fmt_2d (z : Z) : string :=
  let s := fmt_d z in
  if bool_decide (String.length s < 2)%nat then " " +:+ s else s.

Section Startup.

Variable env : gmap string string.

(** [path.Join] *)
Variable path_Join : list string → string.

(** [os.Open]: the content that is then read from the file, or the
    error. *)
Variable os_Open : string → string + string.

(** [yaml.Unmarshal(data, z)]: the configuration as filled in, and the
    error if any. *)
Variable yaml_Unmarshal : string → Configuration → Configuration * option string.

(** [t.Format("02.01.06 15:04:05")] of a local time. *)
Variable format_local : time.Time → string.

Definition GetConfigFileLocation : string :=
  if bool_decide (GetHomeDirectory env ≠ "")
  then path_Join [GetHomeDirectory env; configFileName]
  else configFileName.

(** [z.Load(data)] *)
Definition Load (z : Configuration) (data : string)
  : list SysEvent * (Configuration * option string) :=
  ([Unmarshal data], yaml_Unmarshal data z).

(** [z.LoadFromReader(r)], for the reader of the named file with the
    given content. *)
Definition LoadFromReader (z : Configuration) (name content : string)
  : list SysEvent * (Configuration * option string) :=
  let '(ev, res) := Load z content in
  (ReadFrom name :: CloseFile name :: ev, res).

(** [z.LoadFromFile(filename)] *)
Definition LoadFromFile (z : Configuration) (filename : string)
  : list SysEvent * (Configuration * option string) :=
  match os_Open filename with
  | inr err => ([Open filename], (z, Some err))
  | inl content =>
      let '(ev, res) := LoadFromReader z filename content in
      (Open filename :: ev, res)
  end.

(** [GetConfig()], [None] for [nil]. *)
Definition GetConfig : list SysEvent * option Configuration :=
  let '(ev, (cfg, err)) := LoadFromFile zeroConfiguration GetConfigFileLocation in
  (ev, match err with Some _ => None | None => Some cfg end).

(** [main], up to the return of [latch.Wait()]; [now] and [nowLikes] are
    the two readings of [time.Now()]. *)
Definition main (flags : Flags) (now nowLikes : time.Time) : list SysEvent :=
  (if debug flags
   then [Out ("debug: " +:+ fmt_t (debug flags) +:+ ", commit: "
              +:+ fmt_t (xoxo flags) +:+ newline)]
   else []) ++
  let '(ev, cfg) := GetConfig in
  ev ++
  match cfg with
  | None => [Out ("Missing configuration file" +:+ newline)]
  | Some cfg =>
      let filter := mainFilter flags cfg now nowLikes in
      [Out ("Filter Tweets: " +:+ fmt_2d (maxDays flags cfg) +:+ " days, "
            +:+ format_local (MaxDate filter) +:+ newline);
       Out ("Filter Likes:  " +:+ fmt_2d (maxDaysLikes flags cfg) +:+ " days, "
            +:+ format_local (MaxDateLikes filter) +:+ newline);
       SetConsumerKey (ConsumerKey (Auth cfg));
       SetConsumerSecret (ConsumerSecret (Auth cfg));
       NewTwitterApi (AccessToken (Auth cfg)) (AccessSecret (Auth cfg));
       MakeChan;
       MakeChan;
       WgAdd 2;
       Go (LoadTweets GetUserTimeline (MaxDate filter) Tweet);
       Go (LoadTweets GetFavorites (MaxDateLikes filter) Like);
       Go (RemoveTweets Tweet);
       Go (RemoveTweets Like);
       WgWait]
  end.

End Startup.

(** The steps of a start-up trace that act outside the process's own
    console: files, the API client, the wait group and goroutines. *)
Definition acts (tr : list SysEvent) : list SysEvent :=
  List.filter (λ e, match e with Out _ => false | _ => true end) tr.

Definition opened (tr : list SysEvent) : list string :=
  omap (λ e, match e with Open n => Some n | _ => None end) tr.

Definition closed (tr : list SysEvent) : list string :=
  omap (λ e, match e with CloseFile n => Some n | _ => None end) tr.

Definition started (tr : list SysEvent) : list Worker :=
  omap (λ e, match e with Go w => Some w | _ => None end) tr.

(** ** More quantities the statements speak of *)

(** The events of a worker other than its console output. *)
Definition silent (tr : list Event) : list Event :=
  List.filter (λ e, match e with Printf _ => false | _ => true end) tr.

(** The number of failures the answers begin with. *)
Fixpoint leading_fails (answers : list Response) : nat :=
  match answers with
  | Fail _ :: answers' => S (leading_fails answers')
  | _ => 0%nat
  end.

(** Three failures in a row somewhere among the answers. *)
Definition three_in_a_row (answers : list Response) : Prop :=
  ∃ pre e1 e2 e3 post, answers = pre ++ Fail e1 :: Fail e2 :: Fail e3 :: post.

(** The longest window, in days, whose length in nanoseconds fits
    [int64]. *)
Definition maxWholeDays : Z := 106751.

Definition Day : time.Duration := 24 * time.Hour.

(** ** A measure of what the goroutines have still to do *)

Definition main_left (pc : sched.MainPc) : Z :=
  match pc with
  | sched.AtLatchAdd => 6
  | sched.AtGoLoadTweets => 5
  | sched.AtGoLoadLikes => 4
  | sched.AtGoRemoveTweets => 3
  | sched.AtGoRemoveLikes => 2
  | sched.AtWait => 1
  | sched.Returned => 0
  end.

Definition loader_left (out : list anaconda.Tweet) (l : sched.LoaderPc) : Z :=
  match l with
  | sched.LoadIdle => 2 * Z.of_nat (length out) + 3
  | sched.Loading pending => 2 * Z.of_nat (length pending) + 2
  | sched.LoadClosed => 1
  | sched.LoadExited => 0
  end.

Definition remover_left (r : sched.RemoverPc) : Z :=
  match r with
  | sched.RemIdle => 5
  | sched.RemEntered => 4
  | sched.RemBody _ => 3
  | sched.RemRange => 2
  | sched.RemLeft => 1
  | sched.RemExited => 0
  end.

Definition pipe_left (out : list anaconda.Tweet) (p : sched.Pipeline) : Z :=
  loader_left out (sched.loader p) + remover_left (sched.remover p).

Definition steps_left (tweetsOut likesOut : list anaconda.Tweet)
    (w : sched.World) : Z :=
  main_left (sched.mainPc w)
  + pipe_left tweetsOut (sched.tweets w) + pipe_left likesOut (sched.likes w).

(** Once [main] has started a consumer, the consumer is somewhere in
    [removeTweets]. *)
Definition removers_started (w : sched.World) : Prop :=
  (sched.before_remove_tweets (sched.mainPc w) = false →
   sched.remover (sched.tweets w) ≠ sched.RemIdle) ∧
  (sched.before_remove_likes (sched.mainPc w) = false →
   sched.remover (sched.likes w) ≠ sched.RemIdle).

(** Both goroutines of a category have run to their end. *)
Definition pipe_finished (p : sched.Pipeline) : Prop :=
  sched.loader p = sched.LoadExited ∧ sched.remover p = sched.RemExited.

(** * Properties *)

(** ** Machine integers *)

Lemma wrap64_id z : int64_range z → wrap64 z = z.
Proof.
  unfold int64_range, wrap64. intros Hz.
  rewrite Z.mod_small; lia.
Qed.

Lemma backlogDuration_0 : backlogDuration 0 = 0.
Proof. reflexivity. Qed.

(** ** The retention filter *)

Section FilterFacts.

Variable time_Parse : string → string → option time.Time.

Local Abbreviation allow := (allowTweet time_Parse).
Local Abbreviation parsed tweet :=
  (time_Parse createdAtLayout (anaconda.CreatedAt tweet)).

Lemma allowTweet_before tweet maxDate :
  allow tweet maxDate
  = time.Before (default time.zero (parsed tweet)) maxDate.
Proof.
  unfold allowTweet, parse_ignoring_error.
  by destruct (time.Before _ _).
Qed.

Lemma allowTweet_true tweet maxDate :
  allow tweet maxDate = true ↔ default time.zero (parsed tweet) < maxDate.
Proof.
  rewrite allowTweet_before. unfold time.Before. apply Z.ltb_lt.
Qed.

Lemma allowTweet_false tweet maxDate :
  allow tweet maxDate = false ↔ maxDate ≤ default time.zero (parsed tweet).
Proof.
  rewrite allowTweet_before. unfold time.Before. apply Z.ltb_ge.
Qed.

Lemma single_window_allowTweet tweet filter :
  single_window.allowTweet time_Parse tweet filter
  = allowTweet time_Parse tweet (single_window.MaxDate filter).
Proof. reflexivity. Qed.

(** C5: for a tweet whose timestamp parses to [createdAt], the filter
    answers true exactly when [createdAt] is strictly before the cutoff:
    true for [createdAt < maxDate], false for [maxDate <= createdAt],
    equality included.  The filter is a function of its two arguments
    (and of the parser) and nothing else. *)
Theorem allowTweet_parsed tweet createdAt maxDate :
  time_Parse createdAtLayout (anaconda.CreatedAt tweet) = Some createdAt →
  (allowTweet time_Parse tweet maxDate = true ↔ createdAt < maxDate) ∧
  (createdAt < maxDate → allowTweet time_Parse tweet maxDate = true) ∧
  (maxDate ≤ createdAt → allowTweet time_Parse tweet maxDate = false) ∧
  allowTweet time_Parse tweet createdAt = false.
Proof.
  intros Hp.
  pose proof (allowTweet_true tweet maxDate) as Ht.
  pose proof (allowTweet_false tweet maxDate) as Hf.
  pose proof (allowTweet_false tweet createdAt) as He.
  rewrite Hp in Ht, Hf, He. simpl in Ht, Hf, He.
  split_and!; [done | apply Ht | apply Hf | apply He; lia].
Qed.

(** C1, as the code has it: a tweet whose timestamp does not parse is
    compared as the zero instant.  The filter answers true exactly when
    the zero instant is before the cutoff, and then the paginator sends
    the tweet; it answers false only for a cutoff at or before the zero
    instant.  The filter of the single-window version does the same. *)
Theorem allowTweet_unparsed tweet maxDate minID :
  time_Parse createdAtLayout (anaconda.CreatedAt tweet) = None →
  allowTweet time_Parse tweet maxDate = time.Before time.zero maxDate ∧
  (time.zero < maxDate →
   allowTweet time_Parse tweet maxDate = true ∧
   (rangeBody time_Parse maxDate minID tweet).2 = [Range tweet; Send tweet]) ∧
  (maxDate ≤ time.zero → allowTweet time_Parse tweet maxDate = false) ∧
  single_window.allowTweet time_Parse tweet
    (single_window.mkTweetFilter maxDate)
  = time.Before time.zero maxDate.
Proof.
  intros Hp.
  pose proof (allowTweet_true tweet maxDate) as Ht.
  pose proof (allowTweet_false tweet maxDate) as Hf.
  rewrite single_window_allowTweet. cbn [single_window.MaxDate].
  rewrite allowTweet_before, Hp in *. simpl in *.
  split_and!; [done | | apply Hf | done].
  intros Hz. unfold rangeBody. simpl.
  rewrite allowTweet_before, Hp. simpl.
  apply Ht in Hz. by rewrite Hz.
Qed.

End FilterFacts.

Lemma allowTweet_parsed_witness :
  stamp.parse createdAtLayout (anaconda.CreatedAt tweet10d)
  = Some (stamp.Date 2026 10 21 12 0 0) ∧
  allowTweet stamp.parse tweet10d sampleNow = true.
Proof.
  assert (stamp.parse createdAtLayout (anaconda.CreatedAt tweet10d)
          = Some (stamp.Date 2026 10 21 12 0 0)) as Hp
    by (vm_compute; reflexivity).
  split; [exact Hp |].
  destruct (allowTweet_parsed stamp.parse tweet10d _ sampleNow Hp)
    as (_ & Hlt & _).
  apply Hlt. vm_compute. reflexivity.
Defined.

Lemma allowTweet_unparsed_witness :
  stamp.parse createdAtLayout (anaconda.CreatedAt tweetBad) = None ∧
  allowTweet stamp.parse tweetBad sampleNow
  = time.Before time.zero sampleNow.
Proof.
  assert (stamp.parse createdAtLayout (anaconda.CreatedAt tweetBad) = None)
    as Hp by (vm_compute; reflexivity).
  split; [exact Hp |].
  exact (proj1 (allowTweet_unparsed stamp.parse tweetBad sampleNow 0 Hp)).
Defined.

(** C1 as stated fails: the filter lets a tweet with an unreadable
    timestamp through. *)
Lemma allowTweet_unparsed_not_false :
  ¬ (∀ (time_Parse : string → string → option time.Time) tweet maxDate,
       time_Parse createdAtLayout (anaconda.CreatedAt tweet) = None →
       allowTweet time_Parse tweet maxDate = false).
Proof.
  intros H.
  specialize (H stamp.parse tweetBad sampleNow).
  assert (allowTweet stamp.parse tweetBad sampleNow = true) as Ha
    by (vm_compute; reflexivity).
  rewrite H in Ha; [discriminate | vm_compute; reflexivity].
Qed.

(** ** Retention windows *)

(** C9: the likes window is the configured [BacklogDaysLikes], replaced
    by [-l] when that is positive; when the result is zero it is the
    posts window, which is the configured [BacklogDays], replaced by
    [-b] when that is positive. *)
Theorem maxDaysLikes_cases flags cfg :
  (backlog flags > 0 → maxDays flags cfg = backlog flags) ∧
  (backlog flags ≤ 0 → maxDays flags cfg = BacklogDays (Filter cfg)) ∧
  (likemax flags > 0 → maxDaysLikes flags cfg = likemax flags) ∧
  (likemax flags ≤ 0 → BacklogDaysLikes (Filter cfg) ≠ 0 →
   maxDaysLikes flags cfg = BacklogDaysLikes (Filter cfg)) ∧
  (likemax flags ≤ 0 → BacklogDaysLikes (Filter cfg) = 0 →
   maxDaysLikes flags cfg = maxDays flags cfg).
Proof.
  unfold maxDaysLikes, maxDays.
  split_and!; intros; repeat case_bool_decide; lia.
Qed.

Lemma maxDaysLikes_cases_witness :
  maxDaysLikes quiet sampleCfg = 7 ∧
  maxDaysLikes (mkFlags false false 0 30) sampleCfg = 30.
Proof.
  split.
  - destruct (maxDaysLikes_cases quiet sampleCfg) as (_ & Hb & _ & _ & Hl).
    rewrite Hl; [apply Hb | |]; simpl; lia.
  - destruct (maxDaysLikes_cases (mkFlags false false 0 30) sampleCfg)
      as (_ & _ & Hl & _).
    apply Hl. simpl. lia.
Defined.

(** When the windows are zero days. *)
Lemma maxDays_0 flags cfg :
  maxDays flags cfg = 0 ↔ backlog flags ≤ 0 ∧ BacklogDays (Filter cfg) = 0.
Proof. unfold maxDays. case_bool_decide; lia. Qed.

Lemma maxDaysLikes_0 flags cfg :
  maxDaysLikes flags cfg = 0 ↔
  likemax flags ≤ 0 ∧ BacklogDaysLikes (Filter cfg) = 0 ∧ maxDays flags cfg = 0.
Proof. unfold maxDaysLikes. repeat case_bool_decide; lia. Qed.

Section WindowFacts.

Variable time_Parse : string → string → option time.Time.

(** C10: with a window of zero days the cutoff of a category is the
    reading of the clock at startup, so every tweet whose timestamp
    parses to an instant before that reading passes the filter. *)
Theorem zero_days_cutoff_is_now flags cfg now nowLikes :
  let filter := mainFilter flags cfg now nowLikes in
  (maxDays flags cfg = 0 →
   MaxDate filter = now ∧
   ∀ tweet createdAt,
     time_Parse createdAtLayout (anaconda.CreatedAt tweet) = Some createdAt →
     createdAt < now → allowTweet time_Parse tweet (MaxDate filter) = true) ∧
  (maxDaysLikes flags cfg = 0 →
   MaxDateLikes filter = nowLikes ∧
   ∀ tweet createdAt,
     time_Parse createdAtLayout (anaconda.CreatedAt tweet) = Some createdAt →
     createdAt < nowLikes →
     allowTweet time_Parse tweet (MaxDateLikes filter) = true) ∧
  (maxDays flags cfg = 0 ↔
   backlog flags ≤ 0 ∧ BacklogDays (Filter cfg) = 0) ∧
  (maxDaysLikes flags cfg = 0 ↔
   likemax flags ≤ 0 ∧ BacklogDaysLikes (Filter cfg) = 0 ∧
   backlog flags ≤ 0 ∧ BacklogDays (Filter cfg) = 0).
Proof.
  simpl. split_and!.
  - intros Hd. rewrite Hd, backlogDuration_0.
    unfold time.Add. rewrite Z.add_0_r. split; [done |].
    intros tweet createdAt Hp Hlt. apply allowTweet_true. by rewrite Hp.
  - intros Hd. rewrite Hd, backlogDuration_0.
    unfold time.Add. rewrite Z.add_0_r. split; [done |].
    intros tweet createdAt Hp Hlt. apply allowTweet_true. by rewrite Hp.
  - apply maxDays_0.
  - rewrite maxDaysLikes_0, maxDays_0. tauto.
Qed.

End WindowFacts.

Lemma zero_days_cutoff_is_now_witness :
  let cfg0 := mkConfiguration (Auth sampleCfg) (mkFilterInfo 0 0) in
  maxDays quiet cfg0 = 0 ∧
  MaxDate (mainFilter quiet cfg0 sampleNow sampleNow) = sampleNow ∧
  allowTweet stamp.parse tweet1d
    (MaxDate (mainFilter quiet cfg0 sampleNow sampleNow)) = true.
Proof.
  simpl.
  set (cfg0 := mkConfiguration (Auth sampleCfg) (mkFilterInfo 0 0)).
  assert (maxDays quiet cfg0 = 0) as Hd by reflexivity.
  destruct (zero_days_cutoff_is_now stamp.parse quiet cfg0
              sampleNow sampleNow) as [Hposts _].
  destruct (Hposts Hd) as [Hnow Hall].
  split_and!; [exact Hd | exact Hnow |].
  apply (Hall tweet1d (stamp.Date 2026 10 30 12 0 0));
    vm_compute; reflexivity.
Defined.

(** ** Projections of traces *)

Lemma calls_app tr1 tr2 : calls (tr1 ++ tr2) = calls tr1 ++ calls tr2.
Proof. apply omap_app. Qed.

Lemma sends_app tr1 tr2 : sends (tr1 ++ tr2) = sends tr1 ++ sends tr2.
Proof. apply omap_app. Qed.

Lemma ranged_app tr1 tr2 : ranged (tr1 ++ tr2) = ranged tr1 ++ ranged tr2.
Proof. apply omap_app. Qed.

Lemma printed_app tr1 tr2 : printed (tr1 ++ tr2) = printed tr1 ++ printed tr2.
Proof. apply omap_app. Qed.

Lemma closes_app tr1 tr2 : closes (tr1 ++ tr2) = (closes tr1 + closes tr2)%nat.
Proof. unfold closes. by rewrite List.filter_app, length_app. Qed.

Lemma destructive_app tr1 tr2 :
  destructive (tr1 ++ tr2) = destructive tr1 ++ destructive tr2.
Proof. apply List.filter_app. Qed.

Lemma pages_of_app a1 a2 : pages_of (a1 ++ a2) = pages_of a1 ++ pages_of a2.
Proof. unfold pages_of. by rewrite fmap_app, concat_app. Qed.

Lemma calls_Call p tr : calls (Call p :: tr) = p :: calls tr.
Proof. reflexivity. Qed.

Lemma calls_Printf s tr : calls (Printf s :: tr) = calls tr.
Proof. reflexivity. Qed.

Lemma sends_Call p tr : sends (Call p :: tr) = sends tr.
Proof. reflexivity. Qed.

Lemma sends_Printf s tr : sends (Printf s :: tr) = sends tr.
Proof. reflexivity. Qed.

Lemma ranged_Call p tr : ranged (Call p :: tr) = ranged tr.
Proof. reflexivity. Qed.

Lemma closes_Call p tr : closes (Call p :: tr) = closes tr.
Proof. reflexivity. Qed.

Lemma closes_Printf s tr : closes (Printf s :: tr) = closes tr.
Proof. reflexivity. Qed.

Create Rewrite HintDb trace.
#[local] Hint Rewrite calls_app sends_app ranged_app printed_app closes_app
  destructive_app calls_Call calls_Printf sends_Call sends_Printf ranged_Call
  closes_Call closes_Printf : trace.

(** ** The paginator *)

Section PaginatorFacts.

Variable time_Parse : string → string → option time.Time.
Variable cfg : Configuration.
Variable flags : Flags.
Variable maxDate : time.Time.
Variable tweetType : string.

Local Abbreviation allow := (λ tweet, allowTweet time_Parse tweet maxDate).
Local Abbreviation range := (rangeTweets time_Parse maxDate).
Local Abbreviation turn' := (turn time_Parse flags maxDate tweetType).
Local Abbreviation loop := (loadLoop time_Parse flags maxDate tweetType).
Local Abbreviation turns := (loadTurns time_Parse flags maxDate tweetType).
Local Abbreviation state := (loadState time_Parse flags maxDate tweetType).
Local Abbreviation exit := (loadExit flags tweetType).

(** *** The range loop over a page *)

Lemma range_cons tweet tweets m :
  range (tweet :: tweets) m =
  ((range tweets (rangeBody time_Parse maxDate m tweet).1).1,
   (rangeBody time_Parse maxDate m tweet).2
   ++ (range tweets (rangeBody time_Parse maxDate m tweet).1).2).
Proof.
  cbn [rangeTweets]. destruct (rangeBody _ _ _ _) as [m1 ev1].
  cbn [fst snd]. by destruct (rangeTweets _ _ _ _).
Qed.

Lemma range_sends tweets m : sends (range tweets m).2 = List.filter allow tweets.
Proof.
  revert m. induction tweets as [|t ts IH]; intros m; [done |].
  rewrite range_cons. cbn [snd fst]. rewrite sends_app, IH.
  cbn [rangeBody snd List.filter]. by destruct (allowTweet _ _ _).
Qed.

Lemma range_ranged tweets m : ranged (range tweets m).2 = tweets.
Proof.
  revert m. induction tweets as [|t ts IH]; intros m; [done |].
  rewrite range_cons. cbn [snd fst]. rewrite ranged_app, IH.
  cbn [rangeBody snd]. by destruct (allowTweet _ _ _).
Qed.

Lemma range_calls tweets m : calls (range tweets m).2 = [].
Proof.
  revert m. induction tweets as [|t ts IH]; intros m; [done |].
  rewrite range_cons. cbn [snd fst]. rewrite calls_app, IH.
  cbn [rangeBody snd]. by destruct (allowTweet _ _ _).
Qed.

Lemma range_closes tweets m : closes (range tweets m).2 = 0%nat.
Proof.
  revert m. induction tweets as [|t ts IH]; intros m; [done |].
  rewrite range_cons. cbn [snd fst]. rewrite closes_app, IH.
  cbn [rangeBody snd]. by destruct (allowTweet _ _ _).
Qed.

(** With a running minimum that is set and identifiers other than zero,
    the loop computes the minimum. *)
Lemma range_min_set tweets m :
  m ≠ 0 → Forall (λ t, anaconda.Id t ≠ 0) tweets →
  (range tweets m).1 = foldr Z.min m (ids tweets) ∧ (range tweets m).1 ≠ 0.
Proof.
  revert m. induction tweets as [|t ts IH]; intros m Hm Hall; [done |].
  apply Forall_cons in Hall as [Ht Hts].
  rewrite range_cons. cbn [fst rangeBody].
  case_bool_decide; [done |]. cbn [orb].
  assert (foldr Z.min (Z.min m (anaconda.Id t)) (ids ts)
          = foldr Z.min m (ids (t :: ts))) as Hfold.
  { clear. unfold ids. csimpl. generalize (anaconda.Id t). intros i.
    induction ts as [|t' ts IH]; csimpl; [lia |].
    rewrite IH. lia. }
  case_bool_decide.
  - destruct (IH (anaconda.Id t) Ht Hts) as [-> Hne].
    rewrite <- Hfold. by replace (Z.min m (anaconda.Id t)) with (anaconda.Id t) by lia.
  - destruct (IH m Hm Hts) as [-> Hne].
    rewrite <- Hfold. by replace (Z.min m (anaconda.Id t)) with m by lia.
Qed.

Lemma foldr_min_le i l : foldr Z.min i l ≤ i.
Proof. induction l; simpl; lia. Qed.

Lemma foldr_min_min m i l :
  foldr Z.min (Z.min m i) l = Z.min m (foldr Z.min i l).
Proof. induction l as [|x l IH]; simpl; [done |]. rewrite IH. lia. Qed.

(** For a page without the identifier zero the loop leaves the least
    identifier of the page, or the running minimum when that is set and
    smaller. *)
Lemma range_min tweets m :
  tweets ≠ [] → Forall (λ t, anaconda.Id t ≠ 0) tweets →
  (range tweets m).1 =
  if bool_decide (m = 0) then minimum 0 (ids tweets)
  else Z.min m (minimum 0 (ids tweets)).
Proof.
  destruct tweets as [|t ts]; [done |]. intros _ Hall.
  apply Forall_cons in Hall as [Ht Hts].
  rewrite range_cons. unfold ids. csimpl. cbn [fst rangeBody minimum].
  fold (ids ts).
  case_bool_decide as Hm; cbn [orb].
  - by destruct (range_min_set ts (anaconda.Id t) Ht Hts) as [-> _].
  - case_bool_decide.
    + destruct (range_min_set ts (anaconda.Id t) Ht Hts) as [-> _].
      pose proof (foldr_min_le (anaconda.Id t) (ids ts)).
      lia.
    + destruct (range_min_set ts m Hm Hts) as [-> _].
      replace m with (Z.min m (anaconda.Id t)) at 1 by lia.
      by rewrite foldr_min_min.
Qed.

(** *** One turn of the loop *)

Lemma turn_Fail st err :
  turn' st (Fail err) =
  ([Printf ("Error retrieving " +:+ tweetType +:+ "s: " +:+ err +:+ newline)],
   if bool_decide (maxErrorCount ≤ errorCount st + 1) then None
   else Some (mkLoadState (errorCount st + 1) (minID st) (params st))).
Proof. reflexivity. Qed.

Lemma turn_Page_nil st : (turn' st (Page [])).2 = None.
Proof. reflexivity. Qed.

Lemma turn_Page_cons st t ts :
  (turn' st (Page (t :: ts))).2 =
  Some (mkLoadState 0 (wrap64 ((range (t :: ts) (minID st)).1 - 1))
          (Values_Set "max_id"
             (fmt_d (wrap64 ((range (t :: ts) (minID st)).1 - 1)))
             (params st))).
Proof.
  unfold turn. cbn [length]. case_bool_decide; [done |].
  by destruct (rangeTweets _ _ _ _).
Qed.

Lemma turn_events st r :
  calls (turn' st r).1 = [] ∧
  closes (turn' st r).1 = 0%nat ∧
  sends (turn' st r).1 = List.filter allow (tweets_of r) ∧
  ranged (turn' st r).1 = tweets_of r.
Proof.
  destruct r as [err | [|t ts]].
  - done.
  - unfold turn. simpl. by destruct (debug flags).
  - unfold turn. cbn [length]. case_bool_decide; [done |].
    pose proof (range_sends (t :: ts) (minID st)) as Hs.
    pose proof (range_ranged (t :: ts) (minID st)) as Hr.
    pose proof (range_calls (t :: ts) (minID st)) as Hc.
    pose proof (range_closes (t :: ts) (minID st)) as Hl.
    destruct (rangeTweets _ _ _ _) as [m ev]. cbn [fst snd] in *.
    autorewrite with trace. rewrite Hs, Hr, Hc, Hl.
    by destruct (debug flags).
Qed.

Lemma exit_events :
  calls exit = [] ∧ closes exit = 1%nat ∧ sends exit = [] ∧ ranged exit = [].
Proof. unfold loadExit. by destruct (debug flags). Qed.

(** *** The loop *)

Lemma loop_cons r answers st :
  loop (r :: answers) st =
  Call (params st) :: (turn' st r).1 ++
  match (turn' st r).2 with
  | None => exit
  | Some st' => loop answers st'
  end.
Proof. simpl. by destruct (turn _ _ _ _ _ _). Qed.

Lemma loop_app pre rest st st' :
  state pre st = Some st' →
  loop (pre ++ rest) st = turns pre st ++ loop rest st'.
Proof.
  revert st. induction pre as [|r pre IH]; intros st Hst.
  - simpl in Hst. by simplify_eq.
  - rewrite <- app_comm_cons, loop_cons. simpl in Hst |- *.
    destruct (turn _ _ _ _ _ _).2 as [st1|]; [|done].
    by rewrite (IH _ Hst), <- app_assoc.
Qed.

Lemma turns_events pre st st' :
  state pre st = Some st' →
  length (calls (turns pre st)) = length pre ∧
  closes (turns pre st) = 0%nat ∧
  sends (turns pre st) = List.filter allow (pages_of pre) ∧
  ranged (turns pre st) = pages_of pre.
Proof.
  revert st. induction pre as [|r pre IH]; intros st Hst; [done |].
  simpl in Hst |- *.
  destruct (turn_events st r) as (Hc & Hl & Hs & Hr).
  destruct (turn _ _ _ _ _ _).2 as [st1|]; [|done].
  destruct (IH _ Hst) as (IHc & IHl & IHs & IHr).
  change (Call (params st) :: ?l) with ([Call (params st)] ++ l).
  autorewrite with trace. rewrite Hc, Hl, Hs, Hr, IHl, IHs, IHr.
  cbn [calls omap app length]. rewrite IHc.
  change (pages_of (r :: pre)) with (pages_of ([r] ++ pre)).
  rewrite pages_of_app, List.filter_app.
  assert (pages_of [r] = tweets_of r) as ->
    by (unfold pages_of; simpl; apply app_nil_r).
  done.
Qed.

(** The failure counter stays between 0 and 2 while the loop runs. *)
Lemma state_errorCount pre st st' :
  state pre st = Some st' →
  0 ≤ errorCount st < maxErrorCount → 0 ≤ errorCount st' < maxErrorCount.
Proof.
  revert st. induction pre as [|r pre IH]; intros st Hst Hec.
  - simpl in Hst. by simplify_eq.
  - simpl in Hst. destruct r as [err | [|t ts]].
    + rewrite turn_Fail in Hst. cbn [snd] in Hst.
      case_bool_decide; [done |]. apply (IH _ Hst). simpl. lia.
    + done.
    + rewrite turn_Page_cons in Hst. apply (IH _ Hst). simpl.
      unfold maxErrorCount. lia.
Qed.

Lemma loop_head answers st : ∃ tr, loop answers st = Call (params st) :: tr.
Proof. destruct answers; simpl; eauto. Qed.

(** The answers the loop has taken are as many as the calls it made. *)
Lemma loop_taken answers st :
  sends (loop answers st)
  = List.filter allow (pages_of (take (length (calls (loop answers st))) answers))
  ∧ ranged (loop answers st)
    = pages_of (take (length (calls (loop answers st))) answers).
Proof.
  revert st. induction answers as [|r answers IH]; intros st; [done |].
  rewrite loop_cons.
  destruct (turn_events st r) as (Hc & _ & Hs & Hr).
  destruct exit_events as (Hxc & _ & Hxs & Hxr).
  autorewrite with trace. rewrite Hc, Hs, Hr.
  cbn [app length]. rewrite firstn_cons.
  change (pages_of (r :: ?l)) with (pages_of ([r] ++ l)).
  rewrite pages_of_app, List.filter_app.
  assert (pages_of [r] = tweets_of r) as ->
    by (unfold pages_of; simpl; apply app_nil_r).
  destruct (turn _ _ _ _ _ _).2 as [st1|].
  - destruct (IH st1) as [-> ->]. done.
  - rewrite Hxc, Hxs, Hxr. done.
Qed.

(** The stream is never closed twice. *)
Lemma loop_closes_le answers st : (closes (loop answers st) ≤ 1)%nat.
Proof.
  revert st. induction answers as [|r answers IH]; intros st.
  - simpl. unfold closes. simpl. lia.
  - rewrite loop_cons.
    destruct (turn_events st r) as (_ & Hl & _).
    destruct exit_events as (_ & Hxl & _).
    autorewrite with trace. rewrite Hl.
    destruct (turn _ _ _ _ _ _).2 as [st1|]; [apply IH | by rewrite Hxl].
Qed.

Lemma loop_Fail_retry st err answers :
  errorCount st + 1 < maxErrorCount →
  loop (Fail err :: answers) st =
  Call (params st)
  :: Printf ("Error retrieving " +:+ tweetType +:+ "s: " +:+ err +:+ newline)
  :: loop answers (mkLoadState (errorCount st + 1) (minID st) (params st)).
Proof.
  intros Hec. rewrite loop_cons, turn_Fail. cbn [fst snd].
  case_bool_decide; [lia | done].
Qed.

Lemma loop_Fail_break st err answers :
  maxErrorCount ≤ errorCount st + 1 →
  loop (Fail err :: answers) st =
  Call (params st)
  :: Printf ("Error retrieving " +:+ tweetType +:+ "s: " +:+ err +:+ newline)
  :: exit.
Proof.
  intros Hec. rewrite loop_cons, turn_Fail. cbn [fst snd].
  case_bool_decide; [done | lia].
Qed.

Lemma loop_Page_nil st answers :
  loop (Page [] :: answers) st
  = Call (params st) :: (turn' st (Page [])).1 ++ exit.
Proof. by rewrite loop_cons, turn_Page_nil. Qed.

(** Three failures in a row, met with [errorCount] failures already
    counted: the loop calls with the same parameters until the count is
    three and leaves; what follows the failures is never asked for. *)
Lemma loop_three_failures st e1 e2 e3 rest :
  0 ≤ errorCount st < maxErrorCount →
  let tr := loop (Fail e1 :: Fail e2 :: Fail e3 :: rest) st in
  calls tr = replicate (Z.to_nat (maxErrorCount - errorCount st)) (params st) ∧
  closes tr = 1%nat ∧ sends tr = [] ∧ (∃ tr', tr = tr' ++ exit).
Proof.
  intros Hec. unfold maxErrorCount in Hec.
  destruct exit_events as (Hxc & Hxl & Hxs & _).
  assert (errorCount st = 0 ∨ errorCount st = 1 ∨ errorCount st = 2)
    as [H | [H | H]] by lia; cbn zeta.
  - rewrite loop_Fail_retry by (unfold maxErrorCount; lia).
    rewrite loop_Fail_retry by (unfold maxErrorCount; simpl; lia).
    rewrite loop_Fail_break by (unfold maxErrorCount; simpl; lia).
    autorewrite with trace. rewrite H, Hxc, Hxl, Hxs. cbn [params].
    split_and!; try done. by eexists [_; _; _; _; _; _].
  - rewrite loop_Fail_retry by (unfold maxErrorCount; lia).
    rewrite loop_Fail_break by (unfold maxErrorCount; simpl; lia).
    autorewrite with trace. rewrite H, Hxc, Hxl, Hxs. cbn [params].
    split_and!; try done. by eexists [_; _; _; _].
  - rewrite loop_Fail_break by (unfold maxErrorCount; lia).
    autorewrite with trace. rewrite H, Hxc, Hxl, Hxs.
    split_and!; try done. by eexists [_; _].
Qed.

Lemma loadInit_errorCount : errorCount (loadInit cfg) = 0.
Proof. reflexivity. Qed.

(** C4: when the loader fails three times in a row, the paginator makes
    no call after the one that brings the count to three, closes the
    stream once and has sent exactly the allowed tweets of the pages it
    got before.  A page with tweets sets the count back to zero; a
    failure below the threshold is followed at once by a call with the
    same parameters. *)
Theorem three_failures_stop pre e1 e2 e3 rest st :
  state pre (loadInit cfg) = Some st →
  let tr := loadTweets time_Parse cfg flags
              (pre ++ Fail e1 :: Fail e2 :: Fail e3 :: rest) maxDate tweetType in
  Z.of_nat (length (calls tr)) = Z.of_nat (length pre) + 3 - errorCount st ∧
  0 ≤ errorCount st < 3 ∧
  (∃ before, calls tr
             = before ++ replicate (Z.to_nat (3 - errorCount st)) (params st)) ∧
  closes tr = 1%nat ∧
  sends tr = List.filter allow (pages_of pre) ∧
  (∃ tr', tr = tr' ++ exit) ∧
  (∀ st0 t ts, ∃ st1,
     (turn' st0 (Page (t :: ts))).2 = Some st1 ∧ errorCount st1 = 0) ∧
  (∀ st0 err answers, errorCount st0 + 1 < maxErrorCount →
     ∃ tr', loop (Fail err :: answers) st0
            = Call (params st0)
              :: Printf ("Error retrieving " +:+ tweetType +:+ "s: "
                         +:+ err +:+ newline)
              :: Call (params st0) :: tr').
Proof.
  intros Hst. cbn zeta. unfold loadTweets.
  assert (0 ≤ errorCount st < maxErrorCount) as Hec.
  { apply (state_errorCount _ _ _ Hst). rewrite loadInit_errorCount.
    unfold maxErrorCount. lia. }
  rewrite (loop_app _ _ _ _ Hst).
  destruct (turns_events _ _ _ Hst) as (Hc & Hl & Hs & _).
  destruct (loop_three_failures st e1 e2 e3 rest Hec)
    as (Fc & Fl & Fs & tr' & Ftr).
  autorewrite with trace. rewrite Fc, Fl, Fs, Hl, Hs, app_nil_r.
  unfold maxErrorCount in *.
  split_and!; try done; try lia.
  - rewrite length_app, length_replicate, Hc. lia.
  - by eexists.
  - exists (turns pre (loadInit cfg) ++ tr'). by rewrite Ftr, app_assoc.
  - intros st0 t ts. eexists. by rewrite turn_Page_cons.
  - intros st0 err answers Hlt. rewrite (loop_Fail_retry _ _ _ Hlt).
    destruct (loop_head answers
                (mkLoadState (errorCount st0 + 1) (minID st0) (params st0)))
      as [tr0 ->].
    by eexists.
Qed.

(** C7: an empty page ends the loop and the stream is closed, whatever
    the count of failures before it. *)
Theorem empty_page_stops pre rest st :
  state pre (loadInit cfg) = Some st →
  let tr := loadTweets time_Parse cfg flags (pre ++ Page [] :: rest)
              maxDate tweetType in
  length (calls tr) = S (length pre) ∧
  closes tr = 1%nat ∧
  sends tr = List.filter allow (pages_of pre) ∧
  (∃ tr', tr = tr' ++ exit) ∧
  (∀ st0 answers,
     (turn' st0 (Page [])).2 = None ∧
     calls (loop (Page [] :: answers) st0) = [params st0] ∧
     closes (loop (Page [] :: answers) st0) = 1%nat).
Proof.
  intros Hst. cbn zeta. unfold loadTweets.
  rewrite (loop_app _ _ _ _ Hst).
  destruct (turns_events _ _ _ Hst) as (Hc & Hl & Hs & _).
  destruct exit_events as (Hxc & Hxl & Hxs & _).
  assert (∀ st0 answers,
            calls (loop (Page [] :: answers) st0) = [params st0] ∧
            closes (loop (Page [] :: answers) st0) = 1%nat ∧
            sends (loop (Page [] :: answers) st0) = []) as Hnil.
  { intros st0 answers. rewrite loop_Page_nil.
    destruct (turn_events st0 (Page [])) as (Tc & Tl & Ts & _).
    autorewrite with trace. by rewrite Tc, Tl, Ts, Hxc, Hxl, Hxs. }
  destruct (Hnil st rest) as (Nc & Nl & Ns).
  autorewrite with trace. rewrite Nc, Nl, Ns, Hl, Hs, app_nil_r.
  split_and!; try done.
  - rewrite length_app, Hc. simpl. lia.
  - rewrite loop_Page_nil.
    exists (turns pre (loadInit cfg)
            ++ Call (params st) :: (turn' st (Page [])).1).
    by rewrite <- app_assoc.
  - intros st0 answers. destruct (Hnil st0 answers) as (? & ? & _).
    by rewrite turn_Page_nil.
Qed.

(** *** Cursors *)

Lemma foldr_min_swap i s l :
  Z.min i (foldr Z.min s l) = Z.min s (foldr Z.min i l).
Proof. induction l as [|x l IH]; simpl; lia. Qed.

Lemma minimum_app seen l :
  seen ≠ [] → l ≠ [] →
  minimum 0 (seen ++ l) = Z.min (minimum 0 seen) (minimum 0 l).
Proof.
  destruct seen as [|s ss]; [done |]. destruct l as [|i l]; [done |].
  intros _ _. cbn [minimum app]. rewrite foldr_app. cbn [foldr].
  rewrite foldr_min_swap, Z.min_comm, foldr_min_min. lia.
Qed.

Lemma minimum_bounds a b l :
  l ≠ [] → Forall (λ i, a < i < b) l → a < minimum 0 l < b.
Proof.
  destruct l as [|i l]; [done |]. intros _ Hall.
  apply Forall_cons in Hall as [Hi Hl]. cbn [minimum].
  induction Hl as [|x l Hx Hl IH]; simpl; lia.
Qed.

Lemma plain_ids_bounds p :
  plain_ids p → Forall (λ i, - 2 ^ 63 < i < 2 ^ 63) (ids p).
Proof.
  unfold plain_ids, ids. rewrite Forall_fmap. intros Hp.
  eapply Forall_impl; [exact Hp |]. intros t [_ Ht]. exact Ht.
Qed.

Lemma plain_ids_nonzero p :
  plain_ids p → Forall (λ t, anaconda.Id t ≠ 0) p.
Proof. intros Hp. eapply Forall_impl; [exact Hp |]. by intros t [Ht _]. Qed.

Lemma ids_nil p : ids p = [] → p = [].
Proof. by destruct p. Qed.

(** With decreasing page minima the minimum seen so far is that of the
    page just read. *)
Lemma cursors_after_minima seen pages :
  Forall (λ p, p ≠ []) pages →
  decreasing (page_minima pages) →
  seen = [] ∨ Forall (λ m, m < minimum 0 seen) (page_minima pages) →
  cursors_after seen pages = (λ m, m - 1) <$> page_minima pages.
Proof.
  revert seen. induction pages as [|p pages IH]; intros seen Hne Hdec Hseen;
    [done |].
  apply Forall_cons in Hne as [Hp Hne].
  unfold page_minima in *. csimpl in *.
  apply StronglySorted_cons in Hdec as [Hlt Hdec].
  assert (minimum 0 (seen ++ ids p) = minimum 0 (ids p)) as Hmin.
  { destruct Hseen as [-> | Hseen]; [done |].
    apply Forall_cons in Hseen as [Hs _].
    destruct seen as [|s ss]; [done |].
    rewrite minimum_app; [lia | done |].
    intros Hnil. by apply ids_nil in Hnil. }
  rewrite Hmin. f_equal.
  apply IH; [done | done |]. right. rewrite Hmin.
  eapply Forall_impl; [exact Hlt |]. simpl. lia.
Qed.

Lemma pages_of_Page pages : pages_of (Page <$> pages) = concat pages.
Proof.
  unfold pages_of. rewrite <- list_fmap_compose.
  f_equal. induction pages as [|p pages IH]; csimpl; [done |].
  by rewrite IH.
Qed.

(** The calls of the loop over pages with plain identifiers and
    decreasing minima, ended by an empty page. *)
Lemma loop_pages_calls pages st :
  Forall (λ p, p ≠ []) pages →
  Forall plain_ids pages →
  decreasing (page_minima pages) →
  minID st = 0 ∨ Forall (λ m, m ≤ minID st) (page_minima pages) →
  calls (loop ((Page <$> pages) ++ [Page []]) st)
  = params st ::
    ((λ m, Values_Set "max_id" (fmt_d (m - 1)) (params st))
       <$> page_minima pages).
Proof.
  revert st. induction pages as [|p pages IH]; intros st Hne Hplain Hdec Hst.
  - change ((Page <$> []) ++ [Page []]) with [Page []].
    rewrite loop_Page_nil.
    destruct (turn_events st (Page [])) as (Tc & _).
    destruct exit_events as (Hxc & _).
    autorewrite with trace. by rewrite Tc, Hxc.
  - apply Forall_cons in Hne as [Hp Hne].
    apply Forall_cons in Hplain as [Hpp Hplain].
    unfold page_minima in *.
    rewrite !fmap_cons, <- app_comm_cons. rewrite fmap_cons in Hdec, Hst.
    apply StronglySorted_cons in Hdec as [Hlt Hdec].
    destruct p as [|t ts]; [done |].
    rewrite loop_cons, turn_Page_cons.
    destruct (turn_events st (Page (t :: ts))) as (Tc & _).
    autorewrite with trace. rewrite Tc. cbn [app].
    set (m := minimum 0 (ids (t :: ts))) in *.
    assert ((range (t :: ts) (minID st)).1 = m) as ->.
    { rewrite range_min by (done || by apply plain_ids_nonzero).
      fold m. case_bool_decide; [done |].
      destruct Hst as [? | Hst]; [done |].
      apply Forall_cons in Hst as [Hm _]. lia. }
    assert (- 2 ^ 63 < m < 2 ^ 63) as Hm.
    { apply minimum_bounds; [| by apply plain_ids_bounds].
      intros Hnil. by apply ids_nil in Hnil. }
    rewrite wrap64_id by (unfold int64_range; lia).
    rewrite IH; [| done | done | done |].
    + cbn [params]. f_equal. f_equal.
      apply list_fmap_ext. intros _ m' _. unfold Values_Set.
      apply insert_insert_eq.
    + right. cbn [minID]. eapply Forall_impl; [exact Hlt |]. simpl. lia.
Qed.

(** C3, as the code has it: for pages whose identifiers are not zero
    (zero marks the cursor as not yet set) and lie above the least
    [int64], with strictly decreasing page minima and an empty page at
    the end, the first call carries no cursor and every later call
    carries the least identifier seen so far less one; these cursors
    decrease strictly, and the range loop goes over every tweet of
    every page once, in order. *)
Theorem cursors_decrease pages :
  Forall (λ p, p ≠ []) pages →
  Forall plain_ids pages →
  decreasing (page_minima pages) →
  let tr := loadTweets time_Parse cfg flags ((Page <$> pages) ++ [Page []])
              maxDate tweetType in
  let cursors := cursors_after [] pages in
  params (loadInit cfg) !! "max_id" = None ∧
  calls tr = params (loadInit cfg) ::
             ((λ c, Values_Set "max_id" (fmt_d c) (params (loadInit cfg)))
                <$> cursors) ∧
  decreasing cursors ∧
  ranged tr = concat pages.
Proof.
  intros Hne Hplain Hdec. cbn zeta. unfold loadTweets.
  rewrite (cursors_after_minima [] pages Hne Hdec) by by left.
  split_and!.
  - done.
  - rewrite loop_pages_calls by (done || by left).
    f_equal. by rewrite <- list_fmap_compose.
  - eapply StronglySorted_fmap; [| exact Hdec]. simpl. lia.
  - destruct (loop_taken ((Page <$> pages) ++ [Page []]) (loadInit cfg))
      as [_ ->].
    rewrite loop_pages_calls by (done || by left).
    rewrite take_ge.
    + rewrite pages_of_app, pages_of_Page. apply app_nil_r.
    + cbn [length]. unfold page_minima.
      rewrite length_app, !length_fmap. simpl. lia.
Qed.

End PaginatorFacts.

(** ** The deletion consumer *)

Section ConsumerFacts.

Variable time_Parse : string → string → option time.Time.
Variable format_local : time.Time → string.
Variable flags : Flags.
Variable twitter_DeleteTweet : Z → option string.
Variable twitter_Unfavorite : Z → option string.

Local Abbreviation body :=
  (removeBody time_Parse format_local flags
     twitter_DeleteTweet twitter_Unfavorite).
Local Abbreviation remove :=
  (removeTweets time_Parse format_local flags
     twitter_DeleteTweet twitter_Unfavorite).
Local Abbreviation line := (tweetLine time_Parse format_local).

Lemma body_dry_run tweetType tweet :
  xoxo flags = false → destructive (body tweetType tweet) = [].
Proof.
  intros Hx. unfold removeBody. rewrite Hx.
  repeat case_bool_decide; reflexivity.
Qed.

Lemma body_dry_run_printed tweetType tweet :
  xoxo flags = false → tweetType = Tweet ∨ tweetType = Like →
  printed (body tweetType tweet) = [line tweetType tweet].
Proof.
  intros Hx Hty. unfold removeBody. rewrite Hx.
  repeat case_bool_decide; try reflexivity.
  by destruct Hty.
Qed.

Lemma concat_bodies_destructive tweetType stream :
  xoxo flags = false →
  destructive (concat (body tweetType <$> stream)) = [].
Proof.
  intros Hx. induction stream as [|t ts IH]; [done |].
  rewrite fmap_cons. cbn [concat].
  by rewrite destructive_app, IH, body_dry_run.
Qed.

Lemma concat_bodies_printed tweetType stream :
  xoxo flags = false → tweetType = Tweet ∨ tweetType = Like →
  printed (concat (body tweetType <$> stream)) = line tweetType <$> stream.
Proof.
  intros Hx Hty. induction stream as [|t ts IH]; [done |].
  rewrite fmap_cons. cbn [concat].
  by rewrite printed_app, IH, body_dry_run_printed.
Qed.

(** C6: in a dry run the consumer of either category calls neither
    [DeleteTweet] nor [Unfavorite] for any tweet it receives, and prints
    one line for each tweet, in order (after them only the debug line
    when [-d] is given). *)
Theorem dry_run_no_destructive stream tweetType :
  xoxo flags = false →
  destructive (remove stream tweetType) = [] ∧
  (tweetType = Tweet ∨ tweetType = Like →
   printed (remove stream tweetType)
   = (line tweetType <$> stream)
     ++ (if debug flags
         then ["Exiting log " +:+ tweetType +:+ "s" +:+ newline] else []) ∧
   (debug flags = false →
    length (printed (remove stream tweetType)) = length stream)).
Proof.
  intros Hx. unfold removeTweets.
  change (LatchAdd 1 :: ?l) with ([LatchAdd 1] ++ l).
  split; [| intros Hty; split; [| intros Hd]].
  - rewrite !destructive_app, concat_bodies_destructive by done.
    by destruct (debug flags).
  - rewrite !printed_app, concat_bodies_printed by done.
    by destruct (debug flags).
  - rewrite !printed_app, concat_bodies_printed, Hd by done.
    simpl. by rewrite app_nil_r, length_fmap.
Qed.

End ConsumerFacts.

(** ** Goroutines and the wait group *)

Section SchedFacts.

Import sched.

Variable tweetsOut likesOut : list anaconda.Tweet.

Local Abbreviation step' := (step tweetsOut likesOut).
Local Abbreviation reachable' := (reachable tweetsOut likesOut).
Local Abbreviation inv := (world_inv tweetsOut likesOut).

Lemma pipe_step_balance p delta p' :
  pipe_step p delta p' →
  delta = (remover_held (remover p') - loader_done (loader p'))
          - (remover_held (remover p) - loader_done (loader p)).
Proof. destruct 1; simpl; lia. Qed.

Lemma pipe_step_idle delta p' : ¬ pipe_step idle delta p'.
Proof. unfold idle. inversion 1. Qed.

Lemma pipe_step_remover_idle p delta p' :
  pipe_step p delta p' → remover p = RemIdle → remover p' = RemIdle.
Proof. destruct 1; simpl; congruence. Qed.

Lemma pipe_step_inv out p delta p' :
  pipe_step p delta p' → pipe_inv out p → pipe_inv out p'.
Proof.
  unfold pipe_inv.
  destruct 1 as [t ts d | r d | r d | l d | l t d | l d Hc | l d]; simpl.
  - intros (<- & _ & _). by rewrite <- app_assoc.
  - intros (<- & _ & _). by rewrite app_nil_r.
  - done.
  - destruct l; intuition congruence.
  - destruct l; intuition congruence.
  - destruct l; simpl in Hc; intuition congruence.
  - destruct l; intuition congruence.
Qed.

Lemma pipe_inv_start_remover out p :
  pipe_inv out p → pipe_inv out (start_remover p).
Proof.
  unfold pipe_inv, start_remover. simpl.
  destruct (loader p); intuition congruence.
Qed.

Lemma step_inv w w' : step' w w' → inv w → inv w'.
Proof.
  destruct 1 as [n tw lk | n tw lk | n tw lk | n tw lk | n tw lk | tw lk
                 | n pc tw tw' lk delta Hpc Hp | n pc tw lk lk' delta Hpc Hp];
    unfold world_inv, balance; simpl;
    intros (Hl & Hret & Htw & Hlk & Hrt & Hrl).
  - subst tw lk. simpl in *. split_and!; try done; lia.
  - subst tw lk. simpl in *. split_and!; try done; lia.
  - subst lk. specialize (Hrt eq_refl). simpl in *.
    split_and!; try done; lia.
  - specialize (Hrt eq_refl). specialize (Hrl eq_refl).
    rewrite Hrt in Hl. simpl in *.
    split_and!; try done. by apply pipe_inv_start_remover.
  - specialize (Hrl eq_refl). rewrite Hrl in Hl. simpl in *.
    split_and!; try done. by apply pipe_inv_start_remover.
  - split_and!; done.
  - pose proof (pipe_step_balance _ _ _ Hp) as Hd.
    split_and!; try done.
    + lia.
    + destruct (before_tweets pc).
      * subst tw. by apply pipe_step_idle in Hp.
      * by apply (pipe_step_inv _ _ _ _ Hp).
    + intros Hb. by apply (pipe_step_remover_idle _ _ _ Hp), Hrt.
  - pose proof (pipe_step_balance _ _ _ Hp) as Hd.
    split_and!; try done.
    + lia.
    + destruct (before_likes pc).
      * subst lk. by apply pipe_step_idle in Hp.
      * by apply (pipe_step_inv _ _ _ _ Hp).
    + intros Hb. by apply (pipe_step_remover_idle _ _ _ Hp), Hrl.
Qed.

Lemma reachable_inv w : reachable' w → inv w.
Proof.
  unfold reachable. revert w. apply rtc_ind_r.
  - unfold world_inv, balance. simpl. split_and!; done.
  - intros w1 w2 _ Hstep IH. by apply (step_inv w1).
Qed.

(** When [main] has returned, both paginators have called [latch.Done()]
    and no consumer stands between its [latch.Add(1)] and its
    [latch.Done()]. *)
Lemma returned_none_held w :
  reachable' w → mainPc w = Returned →
  loader (tweets w) = LoadExited ∧ loader (likes w) = LoadExited ∧
  remover_held (remover (tweets w)) = 0 ∧
  remover_held (remover (likes w)) = 0.
Proof.
  intros Hw Hpc. destruct (reachable_inv w Hw) as (Hl & Hret & _).
  specialize (Hret Hpc). unfold balance in Hl. rewrite Hpc, Hret in Hl.
  simpl in Hl.
  destruct (loader (tweets w)), (loader (likes w)),
    (remover (tweets w)), (remover (likes w)); simpl in *;
    split_and!; (done || lia).
Qed.

(** What a consumer has received is a prefix of what its paginator sends,
    and all of it once the consumer has left its loop. *)
Lemma delivered_in_order w :
  reachable' w →
  delivered (tweets w) `prefix_of` tweetsOut ∧
  delivered (likes w) `prefix_of` likesOut ∧
  (remover (tweets w) = RemLeft ∨ remover (tweets w) = RemExited →
   delivered (tweets w) = tweetsOut) ∧
  (remover (likes w) = RemLeft ∨ remover (likes w) = RemExited →
   delivered (likes w) = likesOut).
Proof.
  intros Hw. destruct (reachable_inv w Hw) as (_ & _ & Htw & Hlk & Hrt & Hrl).
  assert (∀ out p, p = idle ∨ pipe_inv out p →
            delivered p `prefix_of` out ∧
            (remover p = RemLeft ∨ remover p = RemExited → delivered p = out))
    as Hpipe.
  { intros out p [-> | Hp].
    - split; [apply prefix_nil |]. simpl. intuition congruence.
    - unfold pipe_inv in Hp. destruct (loader p).
      + done.
      + destruct Hp as (<- & ? & ?). split; [by eexists |].
        intuition congruence.
      + by subst.
      + by subst. }
  destruct (Hpipe tweetsOut (tweets w)) as [? ?];
    [destruct (before_tweets _); auto |].
  destruct (Hpipe likesOut (likes w)) as [? ?];
    [destruct (before_likes _); auto |].
  done.
Qed.

End SchedFacts.

(** ** Runs *)

(** C2 fails on the code: the consumers add themselves to the wait group
    only once they run.  When both loaders answer the first call with an
    empty page, both paginators can close their streams and call
    [latch.Done()] before either consumer has run its [latch.Add(1)];
    the counter is then zero, [latch.Wait()] returns and [main] with it,
    with both consumers started and not yet counted. *)
Theorem main_returns_before_consumers_add :
  let run := λ tweetType,
    loadTweets stamp.parse sampleCfg quiet [Page []] sampleNow tweetType in
  sends (run Tweet) = [] ∧ sends (run Like) = [] ∧
  sched.reachable (sends (run Tweet)) (sends (run Like))
    (sched.mkWorld 0 sched.Returned
       (sched.mkPipeline sched.LoadExited sched.RemEntered [])
       (sched.mkPipeline sched.LoadExited sched.RemEntered [])).
Proof.
  cbv beta zeta.
  assert (sends (loadTweets stamp.parse sampleCfg quiet [Page []]
                   sampleNow Tweet) = []) as -> by (vm_compute; reflexivity).
  assert (sends (loadTweets stamp.parse sampleCfg quiet [Page []]
                   sampleNow Like) = []) as -> by (vm_compute; reflexivity).
  split_and!; [done | done |].
  unfold sched.reachable, sched.init, sched.idle.
  eapply rtc_l; [apply sched.main_add |]. simpl.
  eapply rtc_l; [apply sched.main_go_load_tweets |].
  eapply rtc_l; [apply sched.main_go_load_likes |].
  eapply rtc_l; [apply sched.main_go_remove_tweets |].
  eapply rtc_l; [apply sched.main_go_remove_likes |].
  unfold sched.start_loader, sched.start_remover. simpl.
  eapply rtc_l; [apply sched.tweets_step; [done | apply sched.step_close] |].
  eapply rtc_l;
    [apply sched.tweets_step; [done | apply sched.step_load_done] |].
  eapply rtc_l; [apply sched.likes_step; [done | apply sched.step_close] |].
  eapply rtc_l;
    [apply sched.likes_step; [done | apply sched.step_load_done] |].
  simpl.
  eapply rtc_l; [apply sched.main_wait |].
  apply rtc_refl.
Qed.

(** C8: the tweets sent on the stream are the allowed tweets of the pages
    the loader answered with, page after page and within a page in the
    order of the answer; the consumer receives them in that order.  With
    a cutoff seven days back, a page of tweets one, ten and eight days
    old followed by an empty page yields the ten days old tweet and then
    the eight days old one. *)
Theorem sends_in_discovery_order
    (time_Parse : string → string → option time.Time)
    cfg flags maxDate tweetType answers :
  let tr := loadTweets time_Parse cfg flags answers maxDate tweetType in
  sends tr
  = List.filter (λ tweet, allowTweet time_Parse tweet maxDate)
      (pages_of (take (length (calls tr)) answers)) ∧
  (∀ likesOut w, sched.reachable (sends tr) likesOut w →
     sched.delivered (sched.tweets w) `prefix_of` sends tr) ∧
  (∀ tweetsOut w, sched.reachable tweetsOut (sends tr) w →
     sched.delivered (sched.likes w) `prefix_of` sends tr) ∧
  sends (loadTweets stamp.parse sampleCfg quiet
           [Page [tweet1d; tweet10d; tweet8d]; Page []]
           (MaxDate (mainFilter quiet sampleCfg sampleNow sampleNow)) Tweet)
  = [tweet10d; tweet8d].
Proof.
  cbn zeta. split_and!.
  - apply loop_taken.
  - intros likesOut w Hw. by destruct (delivered_in_order _ _ w Hw) as (? & _).
  - intros tweetsOut w Hw.
    by destruct (delivered_in_order _ _ w Hw) as (_ & ? & _).
  - vm_compute. reflexivity.
Qed.

(** C3 as stated fails: with the identifier zero in a page the running
    minimum is taken for unset.  After a page with identifier 1 and a
    page with identifiers 0 and 5 the cursors are 0 and then 4, where
    the least identifiers seen less one are 0 and then -1. *)
Lemma cursors_with_zero_id :
  ¬ (∀ pages,
       Forall (λ p, p ≠ []) pages →
       decreasing (page_minima pages) →
       let tr := loadTweets stamp.parse sampleCfg quiet
                   ((Page <$> pages) ++ [Page []]) sampleNow Tweet in
       let cursors := cursors_after [] pages in
       calls tr = params (loadInit sampleCfg) ::
                  ((λ c, Values_Set "max_id" (fmt_d c)
                           (params (loadInit sampleCfg))) <$> cursors) ∧
       decreasing cursors ∧
       ranged tr = concat pages).
Proof.
  intros H.
  specialize (H [[anaconda.mkTweet 1 "" "a"];
                 [anaconda.mkTweet 0 "" "b"; anaconda.mkTweet 5 "" "c"]]).
  destruct H as (Hcalls & _).
  - by repeat constructor.
  - unfold decreasing, page_minima. simpl.
    repeat constructor; lia.
  - apply (f_equal (fmap (λ p : Values, p !! "max_id"))) in Hcalls.
    vm_compute in Hcalls. discriminate.
Qed.

(** The decrement wraps at the least [int64]: the cursor after a page
    with that identifier is the greatest [int64]. *)
Lemma cursor_wraps_at_least_int64 :
  (λ p : Values, p !! "max_id") <$>
    calls (loadTweets stamp.parse sampleCfg quiet
             [Page [anaconda.mkTweet 5 "" "a"];
              Page [anaconda.mkTweet (- 2 ^ 63) "" "b"]; Page []]
             sampleNow Tweet)
  = [None; Some ["4"]; Some ["9223372036854775807"]].
Proof. vm_compute. reflexivity. Qed.

Lemma cursors_decrease_witness :
  let pages := [[tweet1d; tweet10d]; [tweet8d]] in
  decreasing (page_minima pages) ∧
  cursors_after [] pages = [901; 900] ∧
  ranged (loadTweets stamp.parse sampleCfg quiet
            ((Page <$> pages) ++ [Page []]) sampleNow Tweet)
  = [tweet1d; tweet10d; tweet8d].
Proof.
  cbn zeta.
  assert (decreasing (page_minima [[tweet1d; tweet10d]; [tweet8d]])) as Hdec.
  { unfold decreasing, page_minima. simpl. repeat constructor; lia. }
  split_and!; [exact Hdec | reflexivity |].
  refine (proj2 (proj2 (proj2
    (cursors_decrease stamp.parse sampleCfg quiet sampleNow Tweet
       [[tweet1d; tweet10d]; [tweet8d]] _ _ Hdec)))).
  - repeat constructor; discriminate.
  - unfold plain_ids. repeat constructor; simpl; lia.
Defined.

Lemma three_failures_stop_witness :
  let answers :=
    [Page [tweet1d; tweet10d]; Fail "timeout";
     Fail "timeout"; Fail "timeout"; Fail "timeout"; Page [tweet8d]] in
  let tr := loadTweets stamp.parse sampleCfg quiet answers
              (MaxDate (mainFilter quiet sampleCfg sampleNow sampleNow))
              Tweet in
  closes tr = 1%nat ∧ sends tr = [tweet10d] ∧ length (calls tr) = 4%nat.
Proof.
  cbn zeta.
  set (maxDate := MaxDate (mainFilter quiet sampleCfg sampleNow sampleNow)).
  destruct (loadState stamp.parse quiet maxDate Tweet
              [Page [tweet1d; tweet10d]; Fail "timeout"]
              (loadInit sampleCfg)) as [st|] eqn:Hst.
  - destruct (three_failures_stop stamp.parse sampleCfg quiet maxDate Tweet
                [Page [tweet1d; tweet10d]; Fail "timeout"]
                "timeout" "timeout" "timeout" [Page [tweet8d]] st Hst)
      as (_ & _ & _ & Hclose & Hsends & _).
    split_and!; [exact Hclose | | vm_compute; reflexivity].
    etransitivity; [exact Hsends | vm_compute; reflexivity].
  - vm_compute in Hst. discriminate.
Defined.

Lemma empty_page_stops_witness :
  let tr := loadTweets stamp.parse sampleCfg quiet
              [Fail "timeout"; Fail "timeout"; Page []; Page [tweet8d]]
              sampleNow Tweet in
  closes tr = 1%nat ∧ length (calls tr) = 3%nat.
Proof.
  cbn zeta.
  destruct (loadState stamp.parse quiet sampleNow Tweet
              [Fail "timeout"; Fail "timeout"] (loadInit sampleCfg))
    as [st|] eqn:Hst.
  - destruct (empty_page_stops stamp.parse sampleCfg quiet sampleNow Tweet
                [Fail "timeout"; Fail "timeout"] [Page [tweet8d]] st Hst)
      as (Hcalls & Hclose & _).
    split; [exact Hclose | exact Hcalls].
  - vm_compute in Hst. discriminate.
Defined.

Lemma dry_run_no_destructive_witness :
  let tr := removeTweets stamp.parse (λ t, fmt_d t) quiet
              (λ _, None) (λ _, None) [tweet10d; tweet8d] Tweet in
  destructive tr = [] ∧ length (printed tr) = 2%nat.
Proof.
  cbn zeta.
  destruct (dry_run_no_destructive stamp.parse (λ t, fmt_d t) quiet
              (λ _, None) (λ _, None) [tweet10d; tweet8d] Tweet eq_refl)
    as [Hd Hp].
  split; [exact Hd |].
  destruct (Hp (or_introl eq_refl)) as [_ Hlen].
  exact (Hlen eq_refl).
Defined.

(** * Further properties of the program *)

(** ** The configuration file *)

Lemma os_Getenv_unset env key : env !! key = None → os_Getenv env key = "".
Proof. unfold os_Getenv. by intros ->. Qed.

(** X1: [GetHomeDirectory] hands back the first of [HOME], [HOMEPATH] and
    [USERPROFILE] that is set to something other than the empty string,
    and the empty string exactly when there is none. *)
Theorem GetHomeDirectory_first env :
  let home := os_Getenv env "HOME" in
  let homepath := os_Getenv env "HOMEPATH" in
  let userprofile := os_Getenv env "USERPROFILE" in
  (home ≠ "" → GetHomeDirectory env = home) ∧
  (home = "" → homepath ≠ "" → GetHomeDirectory env = homepath) ∧
  (home = "" → homepath = "" → GetHomeDirectory env = userprofile) ∧
  (GetHomeDirectory env = "" ↔ home = "" ∧ homepath = "" ∧ userprofile = "").
Proof.
  cbn zeta. unfold GetHomeDirectory, homeLocations.
  cbn [GetHomeDirectory_range].
  repeat case_bool_decide; split_and!; try done; try tauto.
  all: intuition congruence.
Qed.

Section StartupFacts.

Variable env : gmap string string.
Variable path_Join : list string → string.
Variable os_Open : string → string + string.
Variable yaml_Unmarshal : string → Configuration → Configuration * option string.
Variable format_local : time.Time → string.

Local Abbreviation location := (GetConfigFileLocation env path_Join).
Local Abbreviation getConfig :=
  (GetConfig env path_Join os_Open yaml_Unmarshal).

Lemma GetHomeDirectory_HOME h :
  env !! "HOME" = Some h → h ≠ "" → GetHomeDirectory env = h.
Proof.
  intros Hh Hne.
  assert (os_Getenv env "HOME" = h) as Hg
    by (unfold os_Getenv; by rewrite Hh).
  unfold GetHomeDirectory, homeLocations. cbn [GetHomeDirectory_range].
  case_bool_decide; congruence.
Qed.

Lemma GetHomeDirectory_unset :
  env !! "HOME" = None → env !! "HOMEPATH" = None →
  env !! "USERPROFILE" = None → GetHomeDirectory env = "".
Proof.
  intros H1 H2 H3. unfold GetHomeDirectory, homeLocations.
  cbn [GetHomeDirectory_range].
  pose proof (os_Getenv_unset env _ H1). pose proof (os_Getenv_unset env _ H2).
  pose proof (os_Getenv_unset env _ H3).
  repeat case_bool_decide; congruence.
Qed.

(** X2: the configuration is looked for under the home directory when [HOME]
    is set, and under the bare file name, relative to the working
    directory, when none of the three variables is set. *)
Theorem GetConfigFileLocation_cases :
  (∀ h, env !! "HOME" = Some h → h ≠ "" →
        GetConfigFileLocation env path_Join = path_Join [h; configFileName]) ∧
  (env !! "HOME" = None → env !! "HOMEPATH" = None →
   env !! "USERPROFILE" = None →
   GetConfigFileLocation env path_Join = configFileName).
Proof.
  unfold GetConfigFileLocation. split.
  - intros h Hh Hne. pose proof (GetHomeDirectory_HOME h Hh Hne).
    case_bool_decide; congruence.
  - intros H1 H2 H3. pose proof (GetHomeDirectory_unset H1 H2 H3).
    case_bool_decide; congruence.
Qed.

Lemma GetConfig_open_error err :
  os_Open location = inr err → getConfig = ([Open location], None).
Proof.
  intros Ho. unfold GetConfig, LoadFromFile. by rewrite Ho.
Qed.

Lemma GetConfig_opened content :
  os_Open location = inl content →
  getConfig =
  ([Open location; ReadFrom location; CloseFile location; Unmarshal content],
   match (yaml_Unmarshal content zeroConfiguration).2 with
   | Some _ => None
   | None => Some (yaml_Unmarshal content zeroConfiguration).1
   end).
Proof.
  intros Ho. unfold GetConfig, LoadFromFile, LoadFromReader, Load.
  rewrite Ho. by destruct (yaml_Unmarshal _ _) as [cfg [err|]].
Qed.

(** X3: [GetConfig] opens one file, the one at the configuration's location.
    When it opens, the file is read and closed once, and closed before
    its content is parsed, whether or not the content parses; when it
    does not open, nothing is read, closed or parsed.  The result is a
    configuration exactly when the file opens and its content parses
    without error. *)
Theorem GetConfig_file :
  opened getConfig.1 = [GetConfigFileLocation env path_Join] ∧
  (∀ err, os_Open location = inr err →
     getConfig.1 = [Open location] ∧ getConfig.2 = None) ∧
  (∀ content, os_Open location = inl content →
     getConfig.1 = [Open location; ReadFrom location; CloseFile location;
                    Unmarshal content] ∧
     closed getConfig.1 = [location]) ∧
  (∀ cfg, getConfig.2 = Some cfg ↔
     ∃ content, os_Open location = inl content ∧
                yaml_Unmarshal content zeroConfiguration = (cfg, None)).
Proof.
  split_and!.
  - destruct (os_Open location) as [content | err] eqn:Ho.
    + by rewrite (GetConfig_opened content Ho).
    + by rewrite (GetConfig_open_error err Ho).
  - intros err Ho. by rewrite (GetConfig_open_error err Ho).
  - intros content Ho. by rewrite (GetConfig_opened content Ho).
  - intros cfg. destruct (os_Open location) as [content | err] eqn:Ho.
    + rewrite (GetConfig_opened content Ho). cbn [snd].
      destruct (yaml_Unmarshal content zeroConfiguration) as [c [e|]] eqn:Hy;
        cbn [fst snd].
      * split; [done |]. intros (content' & Ho' & Hy'). congruence.
      * split.
        -- intros [= <-]. by exists content.
        -- intros (content' & Ho' & Hy'). congruence.
    + rewrite (GetConfig_open_error err Ho). cbn [snd].
      split; [done |]. intros (content' & Ho' & _). congruence.
Qed.

(** X4: without a configuration, because the file does not open or does not
    parse, [main] prints that the configuration file is missing and
    returns: it sets up no API client, makes no channel, does not touch
    the wait group and starts no goroutine. *)
Theorem main_missing_config flags now nowLikes :
  (∃ err, os_Open location = inr err) ∨
  (∃ content err, os_Open location = inl content ∧
                  (yaml_Unmarshal content zeroConfiguration).2 = Some err) →
  let tr := main env path_Join os_Open yaml_Unmarshal format_local
              flags now nowLikes in
  (∃ before, tr = before ++ [Out ("Missing configuration file" +:+ newline)]) ∧
  acts tr = getConfig.1 ∧
  started tr = [] ∧
  Forall (λ e, match e with
               | Open _ | ReadFrom _ | CloseFile _ | Unmarshal _ | Out _ => True
               | _ => False
               end) tr.
Proof.
  intros Hmiss. cbn zeta. unfold main.
  assert (getConfig.2 = None ∧
          (getConfig.1 = [Open location] ∨
           ∃ content, getConfig.1 = [Open location; ReadFrom location;
                                     CloseFile location; Unmarshal content]))
    as [Hnone Hev].
  { destruct Hmiss as [[err Ho] | (content & err & Ho & Hy)].
    - rewrite (GetConfig_open_error err Ho). split; [done | by left].
    - rewrite (GetConfig_opened content Ho), Hy. split; [done |].
      right. by exists content. }
  destruct getConfig as [ev cfg]. cbn [fst snd] in *. subst cfg.
  split_and!.
  - eexists. by rewrite app_assoc.
  - unfold acts. rewrite !List.filter_app.
    destruct (debug flags), Hev as [-> | [content ->]]; reflexivity.
  - unfold started. rewrite !omap_app.
    destruct (debug flags), Hev as [-> | [content ->]]; reflexivity.
  - destruct (debug flags), Hev as [-> | [content ->]];
      simpl; repeat constructor.
Qed.

End StartupFacts.

Lemma main_missing_config_witness :
  let tr := main ∅ (λ _, "") (λ _, inr "no such file") (λ _ z, (z, None))
              (λ t, fmt_d t) quiet sampleNow sampleNow in
  started tr = [] ∧
  tr = [Open configFileName; Out ("Missing configuration file" +:+ newline)].
Proof.
  cbn zeta.
  destruct (main_missing_config ∅ (λ _, "") (λ _, inr "no such file")
              (λ _ z, (z, None)) (λ t, fmt_d t) quiet sampleNow sampleNow)
    as (_ & _ & Hs & _).
  - left. by exists "no such file".
  - split; [exact Hs | reflexivity].
Defined.

(** ** More on the paginator *)

Lemma first_Close_unique (a a' b b' : list Event) :
  closes a = 0%nat → closes a' = 0%nat →
  a ++ Close :: b = a' ++ Close :: b' → a = a' ∧ b = b'.
Proof.
  revert a'. induction a as [|x a IH]; intros [|x' a'] Ha Ha' Heq.
  - by simplify_eq.
  - simplify_eq; unfold closes in *; simpl in *; lia.
  - simplify_eq; unfold closes in *; simpl in *; lia.
  - injection Heq as -> Heq.
    assert (closes a = 0%nat ∧ closes a' = 0%nat) as [Hc Hc'].
    { unfold closes in *. simpl in Ha, Ha'.
      destruct x'; simpl in Ha, Ha'; lia. }
    by destruct (IH a' Hc Hc' Heq) as [-> ->].
Qed.

Lemma minimum_le i l : i ∈ l → minimum 0 l ≤ i.
Proof.
  destruct l as [|x l]; [by intros ?%elem_of_nil |].
  cbn [minimum]. intros Hi. apply elem_of_cons in Hi as [-> | Hi].
  - apply foldr_min_le.
  - induction l as [|y l IH]; [by apply elem_of_nil in Hi |].
    simpl. apply elem_of_cons in Hi as [-> | Hi]; [lia |].
    specialize (IH Hi). lia.
Qed.

Section PaginatorMore.

Variable time_Parse : string → string → option time.Time.
Variable cfg : Configuration.
Variable flags : Flags.
Variable maxDate : time.Time.
Variable tweetType : string.

Local Abbreviation range := (rangeTweets time_Parse maxDate).
Local Abbreviation turn' := (turn time_Parse flags maxDate tweetType).
Local Abbreviation loop := (loadLoop time_Parse flags maxDate tweetType).
Local Abbreviation state := (loadState time_Parse flags maxDate tweetType).
Local Abbreviation exit := (loadExit flags tweetType).

Lemma pages_of_take k answers t :
  t ∈ pages_of (take k answers) → t ∈ pages_of answers.
Proof.
  intros Ht. rewrite <- (take_drop k answers), pages_of_app.
  apply elem_of_app. by left.
Qed.

(** X5: every tweet the paginator sends on its stream comes from a page the
    loader answered with and passes the retention filter; when its
    timestamp parses, the tweet was created before the cutoff. *)
Theorem sent_tweets_pass_filter answers :
  Forall (λ tweet,
            tweet ∈ pages_of answers ∧
            allowTweet time_Parse tweet maxDate = true ∧
            ∀ createdAt,
              time_Parse createdAtLayout (anaconda.CreatedAt tweet)
              = Some createdAt → createdAt < maxDate)
    (sends (loadTweets time_Parse cfg flags answers maxDate tweetType)).
Proof.
  unfold loadTweets.
  destruct (loop_taken time_Parse flags maxDate tweetType answers
              (loadInit cfg)) as [-> _].
  apply Forall_forall. intros tweet Hin.
  apply list_elem_of_In, List.filter_In in Hin as [Hin Hallow].
  apply list_elem_of_In, pages_of_take in Hin.
  split_and!; [done | done |].
  intros createdAt Hp. apply allowTweet_true in Hallow.
  by rewrite Hp in Hallow.
Qed.

(** The loop's trace is a part without [Close], followed by nothing or by
    the exit sequence. *)
Lemma loop_body_exit answers st :
  ∃ body, closes body = 0%nat ∧
          (loop answers st = body ∨ loop answers st = body ++ exit).
Proof.
  revert st. induction answers as [|r answers IH]; intros st.
  - exists [Call (params st)]. split; [done | by left].
  - rewrite loop_cons.
    destruct (turn_events time_Parse flags maxDate tweetType st r)
      as (_ & Hl & _).
    destruct (turn _ _ _ _ _ _).2 as [st1|].
    + destruct (IH st1) as (body & Hb & Hloop).
      exists (Call (params st) :: (turn' st r).1 ++ body). split.
      * autorewrite with trace. by rewrite Hl, Hb.
      * destruct Hloop as [-> | ->]; [by left | right].
        by rewrite app_comm_cons, app_assoc.
    + exists (Call (params st) :: (turn' st r).1). split.
      * autorewrite with trace. by rewrite Hl.
      * by right.
Qed.

(** X6: once the paginator has closed its stream it only prints its debug
    line, if asked to, and calls [latch.Done()]: it sends nothing on the
    closed stream, does not call the loader again and does not close the
    stream a second time; and it had not closed the stream before. *)
Theorem nothing_after_close answers tr1 tr2 :
  loadTweets time_Parse cfg flags answers maxDate tweetType
  = tr1 ++ Close :: tr2 →
  closes tr1 = 0%nat ∧
  tr2 = (if debug flags
         then [Printf ("Exiting load " +:+ tweetType +:+ "s" +:+ newline)]
         else []) ++ [LatchDone] ∧
  sends tr2 = [] ∧ calls tr2 = [] ∧ closes tr2 = 0%nat.
Proof.
  unfold loadTweets. intros Heq.
  pose proof (loop_closes_le time_Parse flags maxDate tweetType answers
                (loadInit cfg)) as Hle.
  rewrite Heq in Hle. change (Close :: tr2) with ([Close] ++ tr2) in Hle.
  rewrite !closes_app in Hle. change (closes [Close]) with 1%nat in Hle.
  assert (closes tr1 = 0%nat) as H1 by lia.
  destruct (loop_body_exit answers (loadInit cfg)) as (body & Hb & [Hl | Hl]);
    rewrite Hl in Heq.
  - apply (f_equal closes) in Heq. rewrite Hb in Heq.
    change (Close :: tr2) with ([Close] ++ tr2) in Heq.
    rewrite !closes_app in Heq. change (closes [Close]) with 1%nat in Heq.
    lia.
  - unfold loadExit in Heq.
    destruct (first_Close_unique _ _ _ _ Hb H1 Heq) as [_ <-].
    split_and!; try done; by destruct (debug flags).
Qed.

Lemma turn_params st r st' :
  (turn' st r).2 = Some st' →
  params st' = params st ∨
  ∃ v, params st' = Values_Set "max_id" v (params st).
Proof.
  destruct r as [err | [|t ts]].
  - rewrite turn_Fail. cbn [snd]. case_bool_decide; [done |].
    intros [= <-]. by left.
  - done.
  - rewrite turn_Page_cons. intros [= <-]. right. by eexists.
Qed.

Lemma loop_calls_Forall (P : Values → Prop) answers st :
  (∀ p v, P p → P (Values_Set "max_id" v p)) →
  P (params st) → Forall P (calls (loop answers st)).
Proof.
  intros HP. revert st. induction answers as [|r answers IH]; intros st Hst.
  - simpl. by repeat constructor.
  - rewrite loop_cons.
    destruct (turn_events time_Parse flags maxDate tweetType st r)
      as (Hc & _).
    destruct exit_events with (flags := flags) (tweetType := tweetType)
      as (Hxc & _).
    autorewrite with trace. rewrite Hc. cbn [app].
    constructor; [done |].
    destruct (turn _ _ _ _ _ _).2 as [st1|] eqn:Ht.
    + apply IH. destruct (turn_params st r st1 Ht) as [-> | [v ->]]; auto.
    + rewrite Hxc. constructor.
Qed.

(** X7: every call of the loader asks for the timeline of the configured
    user, for pages of 200 and with retweets included; the cursor is
    all that changes between calls. *)
Theorem calls_keep_request answers :
  Forall (λ p : Values,
            p !! "screen_name" = Some [Username (Auth cfg)] ∧
            p !! "count" = Some ["200"] ∧
            p !! "include_rts" = Some ["1"] ∧
            ∀ key, is_Some (p !! key) →
                   key ∈ ["screen_name"; "count"; "include_rts"; "max_id"])
    (calls (loadTweets time_Parse cfg flags answers maxDate tweetType)).
Proof.
  unfold loadTweets. apply loop_calls_Forall.
  - intros p v (H1 & H2 & H3 & Hk). unfold Values_Set.
    rewrite !lookup_insert_ne by done. split_and!; try done.
    intros key. destruct (decide (key = "max_id")) as [-> | Hne].
    + intros _. set_solver.
    + rewrite lookup_insert_ne by done. apply Hk.
  - unfold loadInit, Values_Set. cbn [params]. split_and!.
    + rewrite !lookup_insert_ne by done. apply lookup_insert_eq.
    + rewrite lookup_insert_ne by done. apply lookup_insert_eq.
    + apply lookup_insert_eq.
    + intros key. rewrite !lookup_insert.
      repeat case_decide; subst; try set_solver.
      rewrite lookup_empty. by intros [? ?].
Qed.

(** X8: a page whose identifiers are not zero and lie above the least
    [int64] puts the cursor below every identifier of the page, so that
    the next call cannot ask for the same tweets again; and when a cursor
    was set before, the new one is strictly lower, whatever the page
    holds. *)
Theorem page_lowers_cursor st t ts :
  - 2 ^ 63 < minID st < 2 ^ 63 →
  plain_ids (t :: ts) →
  ∃ st', (turn time_Parse flags maxDate tweetType st (Page (t :: ts))).2
         = Some st' ∧
         Forall (λ x, minID st' < anaconda.Id x) (t :: ts) ∧
         (minID st ≠ 0 → minID st' < minID st) ∧
         params st' !! "max_id" = Some [fmt_d (minID st')] ∧
         errorCount st' = 0.
Proof.
  intros Hm Hplain. rewrite turn_Page_cons. eexists. split; [done |].
  cbn [minID params errorCount].
  rewrite range_min by (done || by apply plain_ids_nonzero).
  set (m := minimum 0 (ids (t :: ts))).
  assert (- 2 ^ 63 < m < 2 ^ 63) as Hb.
  { apply minimum_bounds; [done | by apply plain_ids_bounds]. }
  assert (∀ x, x ∈ t :: ts → m ≤ anaconda.Id x) as Hle.
  { intros x Hx. apply minimum_le. unfold ids.
    apply list_elem_of_fmap. by exists x. }
  split_and!.
  - apply Forall_forall. intros x Hx. specialize (Hle x Hx).
    case_bool_decide; rewrite wrap64_id by (unfold int64_range; lia); lia.
  - intros Hne. rewrite bool_decide_eq_false_2 by done.
    rewrite wrap64_id by (unfold int64_range; lia). lia.
  - unfold Values_Set. apply lookup_insert_eq.
  - done.
Qed.

(** *** When the loop is left *)

Lemma state_app a b st :
  state (a ++ b) st = state a st ≫= state b.
Proof.
  revert st. induction a as [|r a IH]; intros st; [done |].
  simpl. destruct (turn _ _ _ _ _ _).2 as [st1|]; [apply IH | done].
Qed.

Lemma leading_fails_three answers :
  (3 ≤ leading_fails answers)%nat →
  ∃ e1 e2 e3 post, answers = Fail e1 :: Fail e2 :: Fail e3 :: post.
Proof.
  destruct answers as [|[e1|] [|[e2|] [|[e3|] post]]]; simpl; try lia.
  intros _. by exists e1, e2, e3, post.
Qed.

Lemma three_in_a_row_cons r answers :
  three_in_a_row answers → three_in_a_row (r :: answers).
Proof.
  intros (pre & e1 & e2 & e3 & post & ->).
  by exists (r :: pre), e1, e2, e3, post.
Qed.

Lemma state_None answers st :
  0 ≤ errorCount st →
  state answers st = None →
  Page [] ∈ answers ∨ three_in_a_row answers ∨
  maxErrorCount ≤ Z.of_nat (leading_fails answers) + errorCount st.
Proof.
  revert st. induction answers as [|r answers IH]; intros st Hec Hnone;
    [done |].
  cbn [loadState] in Hnone. destruct r as [err | [|t ts]].
  - rewrite turn_Fail in Hnone. cbn [snd] in Hnone.
    case_bool_decide as Hmax.
    + right; right. cbn [leading_fails]. lia.
    + apply IH in Hnone as [Hin | [H3 | Hl]]; [| | | cbn [errorCount]; lia].
      * left. by apply elem_of_cons; right.
      * right; left. by apply three_in_a_row_cons.
      * right; right. cbn [leading_fails errorCount] in *. lia.
  - left. by apply elem_of_cons; left.
  - rewrite turn_Page_cons in Hnone.
    apply IH in Hnone as [Hin | [H3 | Hl]]; [| | | cbn [errorCount]; lia].
    + left. by apply elem_of_cons; right.
    + right; left. by apply three_in_a_row_cons.
    + right; left. cbn [errorCount] in Hl. unfold maxErrorCount in Hl.
      destruct (leading_fails_three answers) as (e1 & e2 & e3 & post & ->);
        [lia |].
      by exists [Page (t :: ts)], e1, e2, e3, post.
Qed.

Lemma state_three_fails st e1 e2 e3 post :
  0 ≤ errorCount st →
  state (Fail e1 :: Fail e2 :: Fail e3 :: post) st = None.
Proof.
  intros Hec. cbn [loadState]. unfold maxErrorCount.
  rewrite turn_Fail. cbn [snd]. case_bool_decide; [done |].
  rewrite turn_Fail. cbn [snd errorCount]. case_bool_decide; [done |].
  rewrite turn_Fail. cbn [snd errorCount]. case_bool_decide; [done |].
  unfold maxErrorCount in *. lia.
Qed.

(** X9: the paginator leaves its loop for two reasons only: an empty page, or
    three failures in a row.  After any other answers it is about to call
    the loader again. *)
Theorem loop_left_iff answers :
  loadState time_Parse flags maxDate tweetType answers (loadInit cfg) = None ↔
  Page [] ∈ answers ∨ three_in_a_row answers.
Proof.
  split.
  - intros Hnone.
    destruct (state_None answers (loadInit cfg)) as [Hin | [H3 | Hl]];
      [by rewrite loadInit_errorCount | done | by left | by right |].
    right. rewrite loadInit_errorCount in Hl. unfold maxErrorCount in Hl.
    destruct (leading_fails_three answers) as (e1 & e2 & e3 & post & ->);
      [lia |].
    by exists [], e1, e2, e3, post.
  - intros [Hin | (pre & e1 & e2 & e3 & post & ->)].
    + apply list_elem_of_split in Hin as (a & b & ->).
      rewrite state_app. destruct (state a (loadInit cfg)); [|done].
      cbn [mbind option_bind loadState]. by rewrite turn_Page_nil.
    + rewrite state_app.
      destruct (state pre (loadInit cfg)) as [st|] eqn:Hst; [|done].
      cbn [mbind option_bind]. apply state_three_fails.
      apply (state_errorCount _ _ _ _ _ _ _ Hst).
      rewrite loadInit_errorCount. unfold maxErrorCount. lia.
Qed.

End PaginatorMore.

(** ** More on the deletion consumer *)

Section ConsumerMore.

Variable time_Parse : string → string → option time.Time.
Variable format_local : time.Time → string.
Variable flags : Flags.
Variable twitter_DeleteTweet : Z → option string.
Variable twitter_Unfavorite : Z → option string.

Local Abbreviation body :=
  (removeBody time_Parse format_local flags
     twitter_DeleteTweet twitter_Unfavorite).
Local Abbreviation remove :=
  (removeTweets time_Parse format_local flags
     twitter_DeleteTweet twitter_Unfavorite).
Local Abbreviation line := (tweetLine time_Parse format_local).

Lemma body_destructive tweetType tweet :
  destructive (body tweetType tweet) =
  if xoxo flags then
    if bool_decide (tweetType = Tweet) then [DeleteTweet (anaconda.Id tweet)]
    else if bool_decide (tweetType = Like) then [Unfavorite (anaconda.Id tweet)]
    else []
  else [].
Proof.
  unfold removeBody. destruct (xoxo flags); repeat case_bool_decide;
    try reflexivity.
  - by destruct (twitter_DeleteTweet _).
  - by destruct (twitter_Unfavorite _).
Qed.

Lemma remove_destructive stream tweetType :
  destructive (remove stream tweetType)
  = concat ((λ tweet, destructive (body tweetType tweet)) <$> stream).
Proof.
  unfold removeTweets.
  change (LatchAdd 1 :: ?l) with ([LatchAdd 1] ++ l).
  rewrite !destructive_app.
  assert (destructive (concat (body tweetType <$> stream))
          = concat ((λ tweet, destructive (body tweetType tweet)) <$> stream))
    as ->.
  { induction stream as [|t ts IH]; [done |].
    rewrite !fmap_cons. cbn [concat]. by rewrite destructive_app, IH. }
  destruct (debug flags); simpl; by rewrite app_nil_r.
Qed.

Lemma concat_singletons {A B} (f : A → B) (l : list A) :
  concat ((λ x, [f x]) <$> l) = f <$> l.
Proof. induction l as [|x l IH]; [done |]. csimpl. by rewrite IH. Qed.

Lemma concat_nils {A B} (l : list A) :
  concat ((λ _, @nil B) <$> l) = [].
Proof. induction l as [|x l IH]; [done |]. csimpl. by rewrite IH. Qed.

Lemma remove_destructive_cases stream tweetType :
  destructive (remove stream tweetType) =
  if xoxo flags then
    if bool_decide (tweetType = Tweet)
    then (λ tweet, DeleteTweet (anaconda.Id tweet)) <$> stream
    else if bool_decide (tweetType = Like)
    then (λ tweet, Unfavorite (anaconda.Id tweet)) <$> stream
    else []
  else [].
Proof.
  rewrite remove_destructive.
  erewrite list_fmap_ext; [| intros i x _; apply body_destructive].
  destruct (xoxo flags); repeat case_bool_decide;
    by rewrite ?concat_singletons, ?concat_nils.
Qed.

(** X10: with [-x] the consumer for tweets calls [DeleteTweet] once for every
    tweet it receives, in the order received and with that tweet's
    identifier, and never [Unfavorite]; the consumer for likes calls
    [Unfavorite] in the same way and never [DeleteTweet].  A call that
    fails does not stop or repeat the work: this holds whatever the API
    answers. *)
Theorem commit_acts_on_each stream :
  xoxo flags = true →
  destructive (removeTweets time_Parse format_local flags
                 twitter_DeleteTweet twitter_Unfavorite stream Tweet)
  = (λ tweet, DeleteTweet (anaconda.Id tweet)) <$> stream ∧
  destructive (removeTweets time_Parse format_local flags
                 twitter_DeleteTweet twitter_Unfavorite stream Like)
  = (λ tweet, Unfavorite (anaconda.Id tweet)) <$> stream.
Proof.
  intros Hx. rewrite !remove_destructive_cases, Hx.
  split; repeat case_bool_decide; done.
Qed.

Lemma body_unknown_printed tweetType tweet :
  tweetType ≠ Tweet → tweetType ≠ Like →
  printed (body tweetType tweet)
  = [line tweetType tweet;
     "Unknown tweet type: " +:+ tweetType +:+ newline].
Proof.
  intros H1 H2. unfold removeBody.
  by rewrite !bool_decide_eq_false_2 by done.
Qed.

(** X11: a consumer started with a type other than [Tweet] and [Like] deletes
    and unlikes nothing, with or without [-x]; for every tweet it prints
    the tweet's line and a line saying that the type is unknown. *)
Theorem unknown_type_acts_on_nothing stream tweetType :
  tweetType ≠ Tweet → tweetType ≠ Like →
  destructive (removeTweets time_Parse format_local flags
                 twitter_DeleteTweet twitter_Unfavorite stream tweetType) = [] ∧
  printed (removeTweets time_Parse format_local flags
             twitter_DeleteTweet twitter_Unfavorite stream tweetType)
  = concat ((λ tweet, [tweetLine time_Parse format_local tweetType tweet;
                       "Unknown tweet type: " +:+ tweetType +:+ newline])
              <$> stream)
    ++ (if debug flags
        then ["Exiting log " +:+ tweetType +:+ "s" +:+ newline] else []).
Proof.
  intros H1 H2. split.
  - rewrite remove_destructive_cases.
    rewrite !bool_decide_eq_false_2 by done. by destruct (xoxo flags).
  - unfold removeTweets.
    change (LatchAdd 1 :: ?l) with ([LatchAdd 1] ++ l).
    rewrite !printed_app.
    assert (printed (concat (body tweetType <$> stream))
            = concat ((λ tweet, [line tweetType tweet;
                                 "Unknown tweet type: " +:+ tweetType
                                 +:+ newline]) <$> stream)) as ->.
    { induction stream as [|t ts IH]; [done |].
      rewrite !fmap_cons. cbn [concat].
      by rewrite printed_app, IH, body_unknown_printed. }
    destruct (debug flags); simpl; by rewrite ?app_nil_r.
Qed.

Lemma body_commit_printed tweet :
  xoxo flags = true →
  length (printed (body Tweet tweet))
  = match twitter_DeleteTweet (anaconda.Id tweet) with
    | Some _ => 2%nat
    | None => 1%nat
    end.
Proof.
  intros Hx. unfold removeBody. rewrite Hx.
  rewrite bool_decide_eq_true_2 by done.
  by destruct (twitter_DeleteTweet _).
Qed.

(** X12: with [-x] and without [-d] the consumer for tweets prints one line
    for every tweet and one more for every tweet whose deletion failed:
    a failure is reported and the next tweet is handled as usual. *)
Theorem failed_deletions_are_reported stream :
  xoxo flags = true → debug flags = false →
  length (printed (removeTweets time_Parse format_local flags
                     twitter_DeleteTweet twitter_Unfavorite stream Tweet))
  = (length stream
     + length (List.filter
                 (λ tweet, bool_decide
                             (is_Some (twitter_DeleteTweet (anaconda.Id tweet))))
                 stream))%nat.
Proof.
  intros Hx Hd. unfold removeTweets. rewrite Hd.
  change (LatchAdd 1 :: ?l) with ([LatchAdd 1] ++ l).
  rewrite !printed_app. simpl printed at 1 3 4. rewrite !app_nil_r. simpl app.
  induction stream as [|t ts IH]; [done |].
  rewrite fmap_cons. cbn [concat List.filter length].
  rewrite printed_app, length_app, IH, (body_commit_printed t Hx).
  destruct (twitter_DeleteTweet (anaconda.Id t)) as [err|]; simpl; lia.
Qed.

End ConsumerMore.

Lemma commit_acts_on_each_witness :
  destructive (removeTweets stamp.parse (λ t, fmt_d t)
                 (mkFlags false true 0 0) (λ _, Some "forbidden") (λ _, None)
                 [tweet10d; tweet8d] Tweet)
  = [DeleteTweet 902; DeleteTweet 901].
Proof.
  exact (proj1 (commit_acts_on_each stamp.parse (λ t, fmt_d t)
                  (mkFlags false true 0 0) (λ _, Some "forbidden") (λ _, None)
                  [tweet10d; tweet8d] eq_refl)).
Defined.

Lemma unknown_type_acts_on_nothing_witness :
  destructive (removeTweets stamp.parse (λ t, fmt_d t)
                 (mkFlags false true 0 0) (λ _, None) (λ _, None)
                 [tweet10d; tweet8d] "Retweet") = [].
Proof.
  refine (proj1 (unknown_type_acts_on_nothing stamp.parse (λ t, fmt_d t)
                   (mkFlags false true 0 0) (λ _, None) (λ _, None)
                   [tweet10d; tweet8d] "Retweet" _ _)); discriminate.
Defined.

Lemma failed_deletions_are_reported_witness :
  length (printed (removeTweets stamp.parse (λ t, fmt_d t)
                     (mkFlags false true 0 0)
                     (λ id, if bool_decide (id = 902) then Some "forbidden"
                            else None)
                     (λ _, None) [tweet10d; tweet8d] Tweet))
  = 3%nat.
Proof.
  exact (failed_deletions_are_reported stamp.parse (λ t, fmt_d t)
           (mkFlags false true 0 0)
           (λ id, if bool_decide (id = 902) then Some "forbidden" else None)
           (λ _, None) [tweet10d; tweet8d] eq_refl eq_refl).
Defined.

(** ** Flags, and the two workers together *)

Lemma silent_app tr1 tr2 : silent (tr1 ++ tr2) = silent tr1 ++ silent tr2.
Proof. apply List.filter_app. Qed.

Section Together.

Variable time_Parse : string → string → option time.Time.
Variable cfg : Configuration.
Variable format_local : time.Time → string.
Variable twitter_DeleteTweet : Z → option string.
Variable twitter_Unfavorite : Z → option string.

Lemma turn_flags flags flags' maxDate tweetType st r :
  (turn time_Parse flags maxDate tweetType st r).2
  = (turn time_Parse flags' maxDate tweetType st r).2 ∧
  silent (turn time_Parse flags maxDate tweetType st r).1
  = silent (turn time_Parse flags' maxDate tweetType st r).1.
Proof.
  destruct r as [err | [|t ts]].
  - done.
  - unfold turn. simpl. by destruct (debug flags), (debug flags').
  - unfold turn. cbn [length]. case_bool_decide; [done |].
    destruct (rangeTweets _ _ _ _) as [m ev]. cbn [fst snd].
    rewrite !silent_app. by destruct (debug flags), (debug flags').
Qed.

Lemma loop_flags flags flags' maxDate tweetType answers st :
  silent (loadLoop time_Parse flags maxDate tweetType answers st)
  = silent (loadLoop time_Parse flags' maxDate tweetType answers st).
Proof.
  revert st. induction answers as [|r answers IH]; intros st; [done |].
  rewrite !loop_cons.
  destruct (turn_flags flags flags' maxDate tweetType st r) as [H2 H1].
  change (Call (params st) :: ?l) with ([Call (params st)] ++ l).
  rewrite !silent_app, H1, <- H2.
  destruct (turn _ _ _ _ _ _).2 as [st1|]; [by rewrite IH |].
  unfold loadExit. by destruct (debug flags), (debug flags').
Qed.

Lemma remove_flags flags flags' stream tweetType :
  xoxo flags = xoxo flags' →
  silent (removeTweets time_Parse format_local flags
            twitter_DeleteTweet twitter_Unfavorite stream tweetType)
  = silent (removeTweets time_Parse format_local flags'
              twitter_DeleteTweet twitter_Unfavorite stream tweetType).
Proof.
  intros Hx. unfold removeTweets.
  change (LatchAdd 1 :: ?l) with ([LatchAdd 1] ++ l).
  rewrite !silent_app. f_equal. f_equal; [| by destruct (debug flags), (debug flags')].
  induction stream as [|t ts IH]; [done |].
  rewrite !fmap_cons. cbn [concat]. rewrite !silent_app, IH. f_equal.
  unfold removeBody. by rewrite Hx.
Qed.

(** X13: what the workers do besides printing does not depend on [-d], [-b]
    or [-l]: the paginator makes the same calls, sends the same tweets
    and closes the stream alike under any flags, and the consumer's
    calls of the API depend on [-x] alone. *)
Theorem flags_change_output_only
    flags flags' answers stream maxDate tweetType :
  silent (loadTweets time_Parse cfg flags answers maxDate tweetType)
  = silent (loadTweets time_Parse cfg flags' answers maxDate tweetType) ∧
  (xoxo flags = xoxo flags' →
   silent (removeTweets time_Parse format_local flags
             twitter_DeleteTweet twitter_Unfavorite stream tweetType)
   = silent (removeTweets time_Parse format_local flags'
               twitter_DeleteTweet twitter_Unfavorite stream tweetType)).
Proof.
  split; [apply loop_flags | apply remove_flags].
Qed.

Lemma sends_from_pages flags answers maxDate tweetType tweet :
  tweet ∈ sends (loadTweets time_Parse cfg flags answers maxDate tweetType) →
  tweet ∈ pages_of answers ∧ allowTweet time_Parse tweet maxDate = true.
Proof.
  unfold loadTweets.
  destruct (loop_taken time_Parse flags maxDate tweetType answers
              (loadInit cfg)) as [-> _].
  intros Hin. apply list_elem_of_In, List.filter_In in Hin as [Hin Hallow].
  split; [| done].
  apply list_elem_of_In in Hin.
  rewrite <- (take_drop (length (calls (loadLoop time_Parse flags maxDate
                                          tweetType answers (loadInit cfg))))
                answers), pages_of_app.
  apply elem_of_app. by left.
Qed.

(** X14: the paginator and the consumer of a category together: every
    [DeleteTweet] or [Unfavorite] the consumer calls is for a tweet that
    the loader answered with and that passes the retention filter with
    the category's cutoff.  Nothing else is ever deleted or unliked. *)
Theorem only_allowed_tweets_are_acted_on
    flags answers maxDate tweetType :
  let stream := sends (loadTweets time_Parse cfg flags answers maxDate
                         tweetType) in
  Forall (λ e, ∃ tweet,
            (e = DeleteTweet (anaconda.Id tweet) ∨
             e = Unfavorite (anaconda.Id tweet)) ∧
            tweet ∈ pages_of answers ∧
            allowTweet time_Parse tweet maxDate = true)
    (destructive (removeTweets time_Parse format_local flags
                    twitter_DeleteTweet twitter_Unfavorite stream tweetType)).
Proof.
  cbn zeta. rewrite remove_destructive_cases.
  destruct (xoxo flags); [| constructor].
  repeat case_bool_decide; try constructor.
  - apply Forall_fmap, Forall_forall. intros tweet Hin.
    apply sends_from_pages in Hin as [? ?]. exists tweet. by eauto.
  - apply Forall_fmap, Forall_forall. intros tweet Hin.
    apply sends_from_pages in Hin as [? ?]. exists tweet. by eauto.
Qed.

End Together.

(** ** More on goroutines and the wait group *)

Section SchedMore.

Import sched.

Variable tweetsOut likesOut : list anaconda.Tweet.

Local Abbreviation step' := (step tweetsOut likesOut).
Local Abbreviation reachable' := (reachable tweetsOut likesOut).
Local Abbreviation left := (steps_left tweetsOut likesOut).

Lemma pipe_step_not_idle p delta p' :
  pipe_step p delta p' → remover p ≠ RemIdle → remover p' ≠ RemIdle.
Proof. destruct 1; simpl; congruence. Qed.

Lemma step_removers_started w w' :
  step' w w' → removers_started w → removers_started w'.
Proof.
  unfold removers_started.
  destruct 1 as [n tw lk | n tw lk | n tw lk | n tw lk | n tw lk | tw lk
                 | n pc tw tw' lk delta Hpc Hp | n pc tw lk lk' delta Hpc Hp];
    simpl; intros [Ht Hl]; split; try done.
  - intros Hb. by apply (pipe_step_not_idle _ _ _ Hp), Ht.
  - intros Hb. by apply (pipe_step_not_idle _ _ _ Hp), Hl.
Qed.

Lemma reachable_removers_started w : reachable' w → removers_started w.
Proof.
  unfold reachable. revert w. apply rtc_ind_r.
  - by split.
  - intros w1 w2 _ Hstep IH. by apply (step_removers_started w1).
Qed.

Lemma reachable_step w w' : reachable' w → step' w w' → reachable' w'.
Proof. unfold reachable. intros Hw Hs. by eapply rtc_r. Qed.


(** A started category whose goroutines have not both run to their end
    has a goroutine that can take a step. *)
Lemma pipe_can_step out p :
  pipe_inv out p → remover p ≠ RemIdle → ¬ pipe_finished p →
  ∃ delta p', pipe_step p delta p'.
Proof.
  unfold pipe_inv, pipe_finished. destruct p as [l r d]. simpl.
  intros Hinv Hr Hfin.
  destruct r as [| | | t | |].
  - done.
  - eexists _, _. apply step_remove_add.
  - destruct l as [| [|t ts] | |].
    + done.
    + eexists _, _. apply step_close.
    + eexists _, _. apply step_send.
    + eexists _, _. apply step_load_done.
    + eexists _, _. by apply step_range_end.
  - eexists _, _. apply step_body.
  - eexists _, _. apply step_remove_done.
  - destruct l as [| pending | |].
    + done.
    + by destruct Hinv as (_ & _ & ?).
    + eexists _, _. apply step_load_done.
    + by destruct Hfin.
Qed.

Lemma pipe_finished_dec p : pipe_finished p ∨ ¬ pipe_finished p.
Proof.
  unfold pipe_finished. destruct (loader p), (remover p);
    (by left) || (right; intros [? ?]; congruence).
Qed.

Lemma can_step w :
  reachable' w → mainPc w ≠ Returned → ∃ w', step' w w'.
Proof.
  intros Hw Hpc.
  destruct (reachable_inv _ _ w Hw) as (Hl & _ & Htw & Hlk & _).
  destruct (reachable_removers_started w Hw) as [Hrt Hrl].
  destruct w as [n pc tw lk]. simpl in *.
  destruct pc; try done.
  - eexists. apply main_add.
  - eexists. apply main_go_load_tweets.
  - eexists. apply main_go_load_likes.
  - eexists. apply main_go_remove_tweets.
  - eexists. apply main_go_remove_likes.
  - simpl in *. specialize (Hrt eq_refl). specialize (Hrl eq_refl).
    destruct (pipe_finished_dec tw) as [Ft | Ft].
    + destruct (pipe_finished_dec lk) as [Fl | Fl].
      * destruct Ft as [Ft1 Ft2], Fl as [Fl1 Fl2].
        unfold balance in Hl. simpl in Hl.
        rewrite Ft1, Ft2, Fl1, Fl2 in Hl. simpl in Hl. subst n.
        eexists. apply main_wait.
      * destruct (pipe_can_step _ lk Hlk Hrl Fl) as (delta & lk' & Hs).
        eexists. by apply likes_step.
    + destruct (pipe_can_step _ tw Htw Hrt Ft) as (delta & tw' & Hs).
      eexists. by apply tweets_step.
Qed.


Lemma pipe_step_left out p delta p' :
  pipe_step p delta p' → pipe_left out p' < pipe_left out p.
Proof.
  unfold pipe_left. destruct 1; simpl; lia.
Qed.

Lemma pipe_left_nonneg out p : 0 ≤ pipe_left out p.
Proof.
  unfold pipe_left. destruct (loader p), (remover p); simpl; lia.
Qed.

Lemma step_left w w' :
  world_inv tweetsOut likesOut w → step' w w' → left w' < left w.
Proof.
  intros (_ & _ & Htw & Hlk & Hrt & Hrl).
  unfold steps_left.
  destruct 1 as [n tw lk | n tw lk | n tw lk | n tw lk | n tw lk | tw lk
                 | n pc tw tw' lk delta Hpc Hp | n pc tw lk lk' delta Hpc Hp];
    simpl in *.
  - lia.
  - subst tw. unfold pipe_left. simpl. lia.
  - subst lk. unfold pipe_left. simpl. lia.
  - specialize (Hrt eq_refl). unfold pipe_left. simpl. rewrite Hrt. simpl. lia.
  - specialize (Hrl eq_refl). unfold pipe_left. simpl. rewrite Hrl. simpl. lia.
  - lia.
  - pose proof (pipe_step_left tweetsOut _ _ _ Hp). lia.
  - pose proof (pipe_step_left likesOut _ _ _ Hp). lia.
Qed.

Lemma left_nonneg w : 0 ≤ left w.
Proof.
  unfold steps_left.
  pose proof (pipe_left_nonneg tweetsOut (tweets w)).
  pose proof (pipe_left_nonneg likesOut (likes w)).
  destruct (mainPc w); simpl; lia.
Qed.


Lemma returned_dec pc : pc = Returned ∨ pc ≠ Returned.
Proof. destruct pc; (by left) || by right. Qed.


(** X19: a consumer that has left its loop has received every tweet its
    paginator sent, each once and in the order sent. *)
Theorem consumer_receives_all w :
  sched.reachable tweetsOut likesOut w →
  (sched.remover (sched.tweets w) = sched.RemExited →
   sched.delivered (sched.tweets w) = tweetsOut) ∧
  (sched.remover (sched.likes w) = sched.RemExited →
   sched.delivered (sched.likes w) = likesOut).
Proof.
  intros Hw.
  destruct (reachable_inv _ _ w Hw) as (_ & _ & Htw & Hlk & _).
  assert (∀ out p, p = idle ∨ pipe_inv out p →
            remover p = RemExited → delivered p = out) as Hpipe.
  { intros out p [-> | Hp]; [done |].
    unfold pipe_inv in Hp. destruct (loader p); intuition congruence. }
  split; apply Hpipe.
  - destruct (before_tweets _); auto.
  - destruct (before_likes _); auto.
Qed.

End SchedMore.

(** ** More on the retention windows *)

Lemma backlogDuration_exact days :
  - maxWholeDays ≤ days ≤ maxWholeDays → backlogDuration days = - (days * Day).
Proof.
  unfold maxWholeDays, backlogDuration, Day, time.Hour, time.Minute,
    time.Second, time.Nanosecond.
  intros Hd.
  rewrite (wrap64_id (days * -24)) by (unfold int64_range; lia).
  rewrite wrap64_id by (unfold int64_range; lia). lia.
Qed.

Section WindowMore.

Variable time_Parse : string → string → option time.Time.

(** X20: for windows of up to 106751 days, in either direction, the cutoffs
    are the readings of the clock less that many days of 24 hours.  The
    bound is sharp: one day more and the length of the window no longer
    fits [int64]; it wraps and the cutoff lies after the clock reading. *)
Theorem windows_exact flags cfg now nowLikes :
  (- maxWholeDays ≤ maxDays flags cfg ≤ maxWholeDays →
   MaxDate (mainFilter flags cfg now nowLikes)
   = now - maxDays flags cfg * Day) ∧
  (- maxWholeDays ≤ maxDaysLikes flags cfg ≤ maxWholeDays →
   MaxDateLikes (mainFilter flags cfg now nowLikes)
   = nowLikes - maxDaysLikes flags cfg * Day) ∧
  now < time.Add now (backlogDuration (maxWholeDays + 1)).
Proof.
  split_and!.
  - intros Hd. cbn [mainFilter MaxDate]. rewrite backlogDuration_exact by done.
    unfold time.Add. lia.
  - intros Hd. cbn [mainFilter MaxDateLikes].
    rewrite backlogDuration_exact by done. unfold time.Add. lia.
  - assert (0 < backlogDuration (maxWholeDays + 1)) as Hpos
      by (vm_compute; reflexivity).
    unfold time.Add. lia.
Qed.

(** X21: a longer window keeps more: a tweet that is old enough for a window
    of [days2] days is old enough for any shorter window of [days1]
    days. *)
Theorem shorter_window_allows_more tweet now days1 days2 :
  0 ≤ days1 ≤ days2 → days2 ≤ maxWholeDays →
  allowTweet time_Parse tweet (time.Add now (backlogDuration days2)) = true →
  allowTweet time_Parse tweet (time.Add now (backlogDuration days1)) = true.
Proof.
  intros H12 H2. rewrite !allowTweet_true.
  rewrite !backlogDuration_exact by (unfold maxWholeDays in *; lia).
  unfold time.Add, Day, time.Hour, time.Minute, time.Second, time.Nanosecond.
  lia.
Qed.

(** X22: nothing checks the sign of the configured number of days: with a
    negative [BacklogDays] and no [-b] the cutoff lies after the start of
    the program, so that every tweet in existence at the start whose
    timestamp parses passes the filter. *)
Theorem negative_days_cutoff_after_start flags cfg now nowLikes :
  backlog flags ≤ 0 →
  - maxWholeDays ≤ BacklogDays (Filter cfg) < 0 →
  now < MaxDate (mainFilter flags cfg now nowLikes) ∧
  ∀ tweet createdAt,
    time_Parse createdAtLayout (anaconda.CreatedAt tweet) = Some createdAt →
    createdAt ≤ now →
    allowTweet time_Parse tweet (MaxDate (mainFilter flags cfg now nowLikes))
    = true.
Proof.
  intros Hb Hd.
  assert (maxDays flags cfg = BacklogDays (Filter cfg)) as Hm.
  { unfold maxDays. case_bool_decide; lia. }
  assert (now < MaxDate (mainFilter flags cfg now nowLikes)) as Hlt.
  { cbn [mainFilter MaxDate]. rewrite Hm.
    rewrite backlogDuration_exact by (unfold maxWholeDays in *; lia).
    unfold time.Add, Day, time.Hour, time.Minute, time.Second,
      time.Nanosecond. lia. }
  split; [done |]. intros tweet createdAt Hp Hle.
  apply allowTweet_true. rewrite Hp.
  change (createdAt < MaxDate (mainFilter flags cfg now nowLikes)). lia.
Qed.

End WindowMore.

(** ** Runs of the further properties *)

Lemma shorter_window_allows_more_witness :
  allowTweet stamp.parse tweet10d (time.Add sampleNow (backlogDuration 3))
  = true.
Proof.
  apply (shorter_window_allows_more stamp.parse tweet10d sampleNow 3 7).
  - lia.
  - unfold maxWholeDays. lia.
  - vm_compute. reflexivity.
Defined.

Lemma negative_days_cutoff_after_start_witness :
  sampleNow
  < MaxDate (mainFilter quiet
               (mkConfiguration (Auth sampleCfg) (mkFilterInfo (-1) 0))
               sampleNow sampleNow).
Proof.
  refine (proj1 (negative_days_cutoff_after_start stamp.parse quiet
                   (mkConfiguration (Auth sampleCfg) (mkFilterInfo (-1) 0))
                   sampleNow sampleNow _ _)).
  - simpl. lia.
  - unfold maxWholeDays. simpl. lia.
Defined.

Lemma nothing_after_close_witness :
  let tr2 := [LatchDone] in
  sends tr2 = [] ∧
  loadTweets stamp.parse sampleCfg quiet [Page [tweet10d]; Page []]
    sampleNow Tweet
  = [Call (params (loadInit sampleCfg)); Range tweet10d; Send tweet10d;
     Call (Values_Set "max_id" "901" (params (loadInit sampleCfg)))]
    ++ Close :: tr2.
Proof.
  cbn zeta.
  assert (loadTweets stamp.parse sampleCfg quiet [Page [tweet10d]; Page []]
            sampleNow Tweet
          = [Call (params (loadInit sampleCfg)); Range tweet10d; Send tweet10d;
             Call (Values_Set "max_id" "901" (params (loadInit sampleCfg)))]
            ++ Close :: [LatchDone]) as Heq by (vm_compute; reflexivity).
  split; [| exact Heq].
  destruct (nothing_after_close stamp.parse sampleCfg quiet sampleNow Tweet
              _ _ _ Heq) as (_ & _ & Hs & _).
  exact Hs.
Defined.

Lemma page_lowers_cursor_witness :
  ∃ st', (turn stamp.parse quiet sampleNow Tweet
            (mkLoadState 0 950 (params (loadInit sampleCfg)))
            (Page [tweet10d; tweet8d])).2 = Some st' ∧
         minID st' < 950.
Proof.
  destruct (page_lowers_cursor stamp.parse quiet sampleNow Tweet
              (mkLoadState 0 950 (params (loadInit sampleCfg)))
              tweet10d [tweet8d])
    as (st' & Ht & _ & Hlt & _).
  - simpl. lia.
  - unfold plain_ids. repeat constructor; simpl; lia.
  - exists st'. split; [exact Ht |]. apply Hlt. simpl. lia.
Defined.





Lemma consumer_receives_all_witness :
  let w := sched.mkWorld 1 sched.AtWait
             (sched.mkPipeline sched.LoadExited sched.RemExited [tweet10d])
             (sched.mkPipeline (sched.Loading []) sched.RemEntered []) in
  sched.reachable [tweet10d] [] w ∧
  sched.delivered (sched.tweets w) = [tweet10d].
Proof.
  cbn zeta.
  assert (sched.reachable [tweet10d] []
            (sched.mkWorld 1 sched.AtWait
               (sched.mkPipeline sched.LoadExited sched.RemExited [tweet10d])
               (sched.mkPipeline (sched.Loading []) sched.RemEntered [])))
    as Hw.
  { unfold sched.reachable, sched.init, sched.idle.
    eapply rtc_l; [apply sched.main_add |].
    eapply rtc_l; [apply sched.main_go_load_tweets |].
    eapply rtc_l; [apply sched.main_go_load_likes |].
    eapply rtc_l; [apply sched.main_go_remove_tweets |].
    eapply rtc_l; [apply sched.main_go_remove_likes |].
    unfold sched.start_loader, sched.start_remover. simpl.
    eapply rtc_l;
      [apply sched.tweets_step; [done | apply sched.step_remove_add] |].
    eapply rtc_l; [apply sched.tweets_step; [done | apply sched.step_send] |].
    eapply rtc_l; [apply sched.tweets_step; [done | apply sched.step_body] |].
    eapply rtc_l; [apply sched.tweets_step; [done | apply sched.step_close] |].
    eapply rtc_l;
      [apply sched.tweets_step; [done | apply sched.step_load_done] |].
    eapply rtc_l;
      [apply sched.tweets_step; [done | by apply sched.step_range_end] |].
    eapply rtc_l;
      [apply sched.tweets_step; [done | apply sched.step_remove_done] |].
    simpl. apply rtc_refl. }
  split; [exact Hw |].
  exact (proj1 (consumer_receives_all [tweet10d] [] _ Hw) eq_refl).
Defined.
